(** * TritonHTTP: a shallow embedding of the request parser, the resource
    resolver, the response builder and writer, and the connection handler.

    Go strings are byte sequences and are modelled as [string]; Go maps
    with string keys are [gmap string string]; a Go run-time panic (index
    out of range, nil dereference) is an explicit [Panic] outcome. *)

From Stdlib Require Import ZArith String Ascii List Lia DecimalString DecimalZ.
From stdpp Require Import base option gmap strings list sorting.

Local Open Scope string_scope.
Local Open Scope Z_scope.

(** ** Outcomes: a normal return or a Go panic *)

Inductive outcome (A : Type) : Type :=
| Ret (a : A)
| Panic (msg : string).
Arguments Ret {A} a.
Arguments Panic {A} msg.

Definition bind {A B} (m : outcome A) (k : A -> outcome B) : outcome B :=
  match m with
  | Ret a => k a
  | Panic msg => Panic msg
  end.

Notation "x <-! m ; k" := (bind m (fun x => k))
  (at level 100, m at next level, right associativity).

(** ** The Go string and slice primitives the program uses *)

Module GoStrings.

(** [s[i]] : indexing a string panics outside [0, len s). *)
Definition byteAt (s : string) (i : Z) : outcome ascii :=
  if (i <? 0) || (Z.of_nat (String.length s) <=? i)
  then Panic "index out of range"
  else match String.get (Z.to_nat i) s with
       | Some c => Ret c
       | None => Panic "index out of range"
       end.

(** [l[i]] : indexing a slice panics outside [0, len l). *)
Definition elemAt {A} (l : list A) (i : nat) : outcome A :=
  match nth_error l i with
  | Some x => Ret x
  | None => Panic "index out of range"
  end.

(** [strings.Contains(s, string(c))] for a one-byte separator. *)
Fixpoint Contains (s : string) (c : ascii) : bool :=
  match s with
  | EmptyString => false
  | String a s' => if Ascii.eqb a c then true else Contains s' c
  end.

(** [strings.Cut(s, string(c))]: the text before and after the first [c]. *)
Fixpoint Cut (s : string) (c : ascii) : option (string * string) :=
  match s with
  | EmptyString => None
  | String a s' =>
      if Ascii.eqb a c then Some (EmptyString, s')
      else match Cut s' c with
           | Some (before, after) => Some (String a before, after)
           | None => None
           end
  end.

(** [strings.Split(s, string(c))]: every piece between separators; the
    result always has one more element than [s] has separators. *)
Fixpoint Split (s : string) (c : ascii) : list string :=
  match s with
  | EmptyString => [EmptyString]
  | String a s' =>
      if Ascii.eqb a c then EmptyString :: Split s' c
      else match Split s' c with
           | piece :: rest => String a piece :: rest
           | [] => [String a EmptyString]
           end
  end.

(** [strings.SplitN(s, string(c), n)] for [n >= 0]: at most [n] pieces, the
    last one being the unsplit remainder. *)
Fixpoint SplitN (s : string) (c : ascii) (n : nat) : list string :=
  match n with
  | O => []
  | S O => [s]
  | S n' =>
      match Cut s c with
      | Some (before, after) => before :: SplitN after c n'
      | None => [s]
      end
  end.

(** [strings.TrimLeft(s, string(c))]: drop the leading run of [c]. *)
Fixpoint TrimLeft (s : string) (c : ascii) : string :=
  match s with
  | EmptyString => EmptyString
  | String a s' => if Ascii.eqb a c then TrimLeft s' c else s
  end.

(** [strings.HasPrefix(s, p)]. *)
Fixpoint HasPrefix (s p : string) {struct p} : bool :=
  match p with
  | EmptyString => true
  | String b p' =>
      match s with
      | EmptyString => false
      | String a s' => Ascii.eqb a b && HasPrefix s' p'
      end
  end.

(** [strings.Join(l, sep)]. *)
Definition Join (l : list string) (sep : string) : string := String.concat sep l.

(** [strings.Count(s, string(c))]. *)
Fixpoint Count (s : string) (c : ascii) : nat :=
  match s with
  | EmptyString => O
  | String a s' => ((if Ascii.eqb a c then 1 else 0) + Count s' c)%nat
  end.

(** [fmt.Sprint] of an integer: its decimal representation. *)
Definition Sprint (z : Z) : string := NilZero.string_of_int (Z.to_int z).

End GoStrings.
Import GoStrings.

(** ** Errors a read or a parse can report *)

Inductive error : Type :=
| EOF                      (* io.EOF *)
| ErrTimeout               (* a net.Error whose Timeout() is true *)
| ErrIO (msg : string)     (* any other read error of the connection *)
| Errorf (msg : string).   (* an error made by fmt.Errorf *)

Definition is_EOF (e : error) : bool :=
  match e with EOF => true | _ => false end.

Definition is_Timeout (e : error) : bool :=
  match e with ErrTimeout => true | _ => false end.

(** ** bufio.Reader over a connection

    A connection delivers [incoming] and then keeps failing with [ending]
    (end of stream, an expired read deadline, or another read error).
    [bufio.Reader.ReadLine] hands the bytes out line by line; the lines it
    will return, in order, are computed by [scanLines]. *)

Record Conn : Type := mkConn { incoming : string; ending : error }.

Record Reader : Type := mkReader { pending : list string; final : error }.

Definition defaultBufSize : nat := 4096.

Definition CR : ascii := "013"%char.
Definition LF : ascii := "010"%char.
Definition CRLF : string := String CR (String LF EmptyString).

(** Drop the ["\r"] that precedes the newline; [acc] holds the line reversed. *)
Definition dropCR (acc : string) : string :=
  match acc with
  | String a acc' => if Ascii.eqb a CR then acc' else acc
  | EmptyString => acc
  end.

(** [acc] is the current line so far, reversed, and [n] its length.
    A line ends at ["\n"] (a preceding ["\r"] is dropped); a buffer full of
    bytes without a newline is returned as it is (the caller ignores
    [isPrefix]), a trailing ["\r"] being put back; bytes left when the
    stream ends are returned as a last line. *)
Fixpoint scanLines (s : string) (acc : string) (n : nat) : list string :=
  match s with
  | EmptyString =>
      match acc with
      | EmptyString => []
      | _ => [String.rev acc]
      end
  | String b s' =>
      if Ascii.eqb b LF then String.rev (dropCR acc) :: scanLines s' EmptyString O
      else if Nat.eqb (S n) defaultBufSize then
        if Ascii.eqb b CR then String.rev acc :: scanLines s' (String CR EmptyString) 1%nat
        else String.rev (String b acc) :: scanLines s' EmptyString O
      else scanLines s' (String b acc) (S n)
  end.

(** [bufio.NewReader(conn)]. *)
Definition NewReader (c : Conn) : Reader :=
  mkReader (scanLines (incoming c) EmptyString O) (ending c).

(** ** Requests and the request parser (the parser's source file) *)

Record Request : Type := mkRequest {
  Method : string;
  URL : string;
  Proto : string;
  Headers : gmap string string;
  Host : string;
  Close : bool
}.

(** What [readRequest] returns: [(req, fRequest, err)]. *)
Record ReadResult : Type := mkReadResult {
  rr_req : option Request;
  rr_noReq : bool;
  rr_err : option error
}.

(** [readLine]: the next line of the reader, or its read error. Once the
    bytes are used up every further read reports the same error. *)
Definition readLine (br : Reader) : (string * option error) * Reader :=
  match pending br with
  | line :: rest => ((line, None), mkReader rest (final br))
  | [] => ((EmptyString, Some (final br)), br)
  end.

(** [parseRequestLine]. The message prints the fields as [%v] does. *)
Definition parseRequestLine (line : string) : list string * option error :=
  let fields := SplitN line " " 3 in
  if negb (Nat.eqb (List.length fields) 3)
  then ([], Some (Errorf ("could not parse the request line, got fields ["
                           ++ Join fields " " ++ "]")))
  else (fields, None).

Section Parser.

(** [CanonicalHeaderKey] belongs to the repository's utilities, whose source
    is not part of the development; the parser is verified for any such
    function. *)
Variable CanonicalHeaderKey : string -> string.

(** The [for] loop of [readRequest] that reads the header block. It returns
    the error that ended the loop or the header map, and the lines left. *)
Fixpoint readHeaders (pend : list string) (fin : error)
    (hdrs : gmap string string)
  : outcome ((error + gmap string string) * list string) :=
  match pend with
  | [] => Ret (inl fin, [])
  | line :: rest =>
      if String.eqb line "" then Ret (inr hdrs, rest)
      else if negb (Contains line ":")
      then Ret (inl (Errorf "400: Invalid header"), rest)
      else
        let header := Split line ":" in
        h0 <-! elemAt header 0 ;
        h1 <-! elemAt header 1 ;
        let headerKey := CanonicalHeaderKey h0 in
        let headerVal := TrimLeft h1 " " in
        readHeaders rest fin (<[headerKey := headerVal]> hdrs)
  end.

(** [return nil, noReq, err]. *)
Definition failRead (noReq : bool) (e : error) (br : Reader)
  : outcome (ReadResult * Reader) :=
  Ret (mkReadResult None noReq (Some e), br).

(** [readRequest]. *)
Definition readRequest (br : Reader) : outcome (ReadResult * Reader) :=
  let '((line, err), br1) := readLine br in
  match err with
  | Some e => failRead true e br1
  | None =>
  let '(startLine, err) := parseRequestLine line in
  match err with
  | Some e => failRead false e br1
  | None =>
  method <-! elemAt startLine 0 ;
  if negb (String.eqb method "GET")
  then failRead false (Errorf "400: Invalid method") br1
  else
  url <-! elemAt startLine 1 ;
  url0 <-! byteAt url 0 ;
  if negb (String.eqb (String url0 EmptyString) "/")
  then failRead false (Errorf "400: Invalid URL") br1
  else
  proto <-! elemAt startLine 2 ;
  if negb (String.eqb proto "HTTP/1.1")
  then failRead false (Errorf "400: Invalid version") br1
  else
  res <-! readHeaders (pending br1) (final br1) ∅ ;
  let '(r, rest) := res in
  let br2 := mkReader rest (final br1) in
  match r with
  | inl e => failRead false e br2
  | inr hdrs =>
      match hdrs !! "Host" with
      | None => failRead false (Errorf "400: Host Needed") br2
      | Some hostVal =>
          let close :=
            match hdrs !! "Connection" with
            | Some connectionVal => String.eqb connectionVal "close"
            | None => false
            end in
          Ret (mkReadResult
                 (Some (mkRequest method url proto hdrs hostVal close))
                 false None, br2)
      end
  end
  end
  end.

End Parser.

(** ** path/filepath on a Unix host: the lexical functions the resolver calls *)

Module Filepath.

Definition Separator : ascii := "/"%char.

(** One step of [Clean] over the path elements; the stack holds the kept
    elements, the last one first. *)
Definition cleanStep (rooted : bool) (stack : list string) (e : string)
  : list string :=
  if String.eqb e "" || String.eqb e "." then stack
  else if String.eqb e ".." then
    match stack with
    | top :: below => if String.eqb top ".." then e :: stack else below
    | [] => if rooted then [] else [e]
    end
  else e :: stack.

(** [filepath.Clean]: drop empty and ["."] elements, let [".."] cancel the
    element before it, drop [".."] at the root; the empty result is ["."]. *)
Definition Clean (path : string) : string :=
  match path with
  | EmptyString => "."
  | String c _ =>
      let rooted := Ascii.eqb c Separator in
      let stack := fold_left (cleanStep rooted) (Split path Separator) [] in
      let body := Join (rev stack) "/" in
      if rooted then String Separator body
      else if String.eqb body "" then "." else body
  end.

(** [filepath.Join]: the elements from the first non-empty one on, joined
    by the separator and cleaned. *)
Fixpoint JoinPath (elem : list string) : string :=
  match elem with
  | [] => ""
  | e :: rest =>
      if String.eqb e "" then JoinPath rest else Clean (Join elem "/")
  end.

(** [s[a:b]]. *)
Definition slice (s : string) (a b : nat) : string := String.substring a (b - a) s.

(** Number of leading bytes of [s] that are not a separator. *)
Fixpoint spanLen (s : string) : nat :=
  match s with
  | EmptyString => O
  | String a s' => if Ascii.eqb a Separator then O else S (spanLen s')
  end.

(** The index of the first separator of [s] at or after [i], else [len s]. *)
Definition nextSep (s : string) (i : nat) : nat :=
  (i + spanLen (slice s i (String.length s)))%nat.

(** The loop of [filepath.Rel] that skips the elements [base] and [targ]
    share; it returns [(b0, bi, t0, ti)]. *)
Fixpoint relLoop (fuel : nat) (base targ : string) (b0 bi t0 ti : nat)
  : nat * nat * nat * nat :=
  match fuel with
  | O => (b0, bi, t0, ti)
  | S fuel' =>
      let bl := String.length base in
      let tl := String.length targ in
      if Nat.ltb bi bl && Nat.ltb ti tl then
        let bi := nextSep base bi in
        let ti := nextSep targ ti in
        if negb (String.eqb (slice targ t0 ti) (slice base b0 bi))
        then (b0, bi, t0, ti)
        else
          let bi := if Nat.ltb bi bl then S bi else bi in
          let ti := if Nat.ltb ti tl then S ti else ti in
          relLoop fuel' base targ bi bi ti ti
      else (b0, bi, t0, ti)
  end.

Fixpoint dotdots (seps : nat) : string :=
  match seps with
  | O => ""
  | S n => "/.." ++ dotdots n
  end.

(** [filepath.Rel]; [None] is its error. *)
Definition Rel (basepath targpath : string) : option string :=
  let base := Clean basepath in
  let targ := Clean targpath in
  if String.eqb targ base then Some "."
  else
    let base := if String.eqb base "." then "" else base in
    let baseSlashed := HasPrefix base "/" in
    let targSlashed := HasPrefix targ "/" in
    if negb (Bool.eqb baseSlashed targSlashed) then None
    else
      let bl := String.length base in
      let tl := String.length targ in
      let '(b0, bi, t0, ti) := relLoop (S bl) base targ 0 0 0 0 in
      if String.eqb (slice base b0 bi) ".." then None
      else if negb (Nat.eqb b0 bl) then
        let seps := Count (slice base b0 bl) Separator in
        Some (".." ++ dotdots seps
                   ++ (if negb (Nat.eqb t0 tl) then "/" ++ slice targ t0 tl else ""))
      else Some (slice targ t0 tl).

(** [filepath.Ext]: from the last dot of the last element on. *)
Fixpoint Ext (path : string) : string :=
  match path with
  | EmptyString => ""
  | String a s' =>
      if Contains s' Separator then Ext s'
      else if negb (String.eqb (Ext s') "") then Ext s'
      else if Ascii.eqb a "."%char then path
      else ""
  end.

End Filepath.

(** ** The host: file metadata, file contents, the clock *)

Definition Time : Type := Z.

Record FileInfo : Type := mkFileInfo {
  IsDir : bool;
  Size : Z;
  ModTime : Time
}.

(** What [os.Stat] returns: a [FileInfo] and no error, or a nil [FileInfo]
    and an error that is [os.ErrNotExist] or another one. *)
Inductive StatResult : Type :=
| StatOk (fi : FileInfo)
| StatNotExist
| StatError (msg : string).

Record World : Type := mkWorld {
  stat : string -> StatResult;           (* os.Stat *)
  readFile : string -> option string;    (* os.Open and io.Copy; None: Open fails *)
  now : Time;                            (* time.Now() *)
  deadlineArmed : bool                   (* conn.SetReadDeadline returned nil *)
}.

(** ** Responses, the resolver, the builders and the writer (response.go) *)

Record Response : Type := mkResponse {
  ResProto : string;
  StatusCode : Z;
  StatusText : string;
  ResHeaders : gmap string string;
  ResRequest : option Request;
  FilePath : string
}.

(** [&Response{}]: every field at its zero value. *)
Definition zeroResponse : Response := mkResponse "" 0 "" ∅ None "".

Definition responseProto : string := "HTTP/1.1".
Definition statusOK : Z := 200.
Definition statusBadRequest : Z := 400.
Definition statusNotFound : Z := 404.

(** The map [statusText]; a missing key reads as the empty string. *)
Definition statusText (code : Z) : string :=
  if code =? statusOK then "OK"
  else if code =? statusBadRequest then "Bad Request"
  else if code =? statusNotFound then "Not Found"
  else "".

Record Server : Type := mkServer {
  Addr : string;
  VirtualHosts : gmap string string
}.

(** Reading a Go map at a key it may lack. *)
Definition mapGet (m : gmap string string) (k : string) : string :=
  default "" (m !! k).

(** [sort.Strings] of the keys of a header map. *)
Definition sortedKeys (m : gmap string string) : list string :=
  merge_sort String.le ((map_to_list m).*1).

(** The bytes of successive [bw.WriteString] calls. *)
Fixpoint writeAll (chunks : list string) : string :=
  match chunks with
  | [] => ""
  | chunk :: rest => chunk ++ writeAll rest
  end.

Section Responses.

(** [FormatTime] and [MIMETypeByExtension] belong to the repository's
    utilities, whose source is not part of the development. *)
Variable FormatTime : Time -> string.
Variable MIMETypeByExtension : string -> string.

Variable w : World.

(** [res.init(req)]. *)
Definition init (res : Response) (req : option Request) : Response :=
  let headers := <["Date" := FormatTime (now w)]> (∅ : gmap string string) in
  let headers :=
    match req with
    | Some r => if Close r then <["Connection" := "close"]> headers else headers
    | None => headers
    end in
  mkResponse responseProto (StatusCode res) (StatusText res) headers req
             (FilePath res).

(** [res.handleOK(req)]; a failed second [os.Stat] leaves [fi] nil. *)
Definition handleOK (res : Response) (req : option Request) : outcome Response :=
  let res := init res req in
  let code := statusOK in
  match stat w (FilePath res) with
  | StatOk fi =>
      let ext := Filepath.Ext (FilePath res) in
      let headers := <["Last-Modified" := FormatTime (ModTime fi)]> (ResHeaders res) in
      let headers := <["Content-Type" := MIMETypeByExtension ext]> headers in
      let headers := <["Content-Length" := Sprint (Size fi)]> headers in
      Ret (mkResponse (ResProto res) code (statusText code) headers
                      (ResRequest res) (FilePath res))
  | _ => Panic "nil pointer dereference"
  end.

(** [res.handleBadRequest(req)]. *)
Definition handleBadRequest (res : Response) (req : option Request) : Response :=
  let res := init res req in
  let code := statusBadRequest in
  mkResponse (ResProto res) code (statusText code)
             (<["Connection" := "close"]> (ResHeaders res)) (ResRequest res) "".

(** [res.handleNotFound(req)]. *)
Definition handleNotFound (res : Response) (req : option Request) : Response :=
  let res := init res req in
  let code := statusNotFound in
  mkResponse (ResProto res) code (statusText code) (ResHeaders res)
             (ResRequest res) "".

Definition withURL (req : Request) (url : string) : Request :=
  mkRequest (Method req) url (Proto req) (Headers req) (Host req) (Close req).

Definition withFilePath (res : Response) (path : string) : Response :=
  mkResponse (ResProto res) (StatusCode res) (StatusText res) (ResHeaders res)
             (ResRequest res) path.

(** The first statement of [handleGoodRequest]: the target with the index
    document appended when its last byte is a slash. Reading the last byte
    of an empty target panics. *)
Definition indexTarget (url : string) : outcome string :=
  last <-! byteAt url (Z.of_nat (String.length url) - 1) ;
  Ret (if String.eqb (String last EmptyString) "/"
       then url ++ "index.html" else url).

(** The rest of [handleGoodRequest], from the lookup of the document root on. *)
Definition resolve (s : Server) (req : Request) : outcome Response :=
  let res := zeroResponse in
  let docroot := mapGet (VirtualHosts s) (Host req) in
  let path := Filepath.JoinPath [docroot; URL req] in
  let notFound := Ret (handleNotFound res (Some req)) in
  match Filepath.Rel docroot path with
  | None => notFound
  | Some pathRel =>
      if HasPrefix pathRel ".." then notFound
      else
        match stat w path with
        | StatNotExist => notFound
        | StatError _ => Panic "nil pointer dereference"
        | StatOk fi =>
            if IsDir fi then notFound
            else handleOK (withFilePath res path) (Some req)
        end
  end.

(** [s.handleGoodRequest(req)]. *)
Definition handleGoodRequest (s : Server) (req : Request) : outcome Response :=
  url <-! indexTarget (URL req) ;
  resolve s (withURL req url).

(** [res.writeStatusLine]: the bytes it writes. *)
Definition writeStatusLine (res : Response) : string :=
  ResProto res ++ " " ++ Sprint (StatusCode res) ++ " "
           ++ statusText (StatusCode res) ++ CRLF.

Definition headerLine (m : gmap string string) (k : string) : string :=
  k ++ ": " ++ mapGet m k ++ CRLF.

(** [res.writeHeaders]: the bytes it writes. *)
Definition writeHeaders (res : Response) : string :=
  writeAll (map (headerLine (ResHeaders res)) (sortedKeys (ResHeaders res)))
    ++ CRLF.

(** [res.writeBody]: the bytes it writes; a file that cannot be opened is
    reported on the console and nothing is written. *)
Definition writeBody (res : Response) : string :=
  if String.eqb (FilePath res) "" then ""
  else match readFile w (FilePath res) with
       | None => ""
       | Some content => content
       end.

(** [res.Write(w)] on a connection that accepts every write. *)
Definition Write (res : Response) : string :=
  writeStatusLine res ++ writeHeaders res ++ writeBody res.

End Responses.

(** ** The connection handler (server.go) *)

(** How one turn of the handler's loop ends: the connection is closed, or
    the loop goes round again on the rest of the input. In both cases
    [written] is what the turn wrote on the connection. *)
Inductive Turn : Type :=
| Closed (written : string)
| KeepAlive (written : string) (br : Reader).

(** How the handler ends: it returns with the connection closed, or the
    goroutine panics; [written] is everything written on the connection. *)
Inductive Run : Type :=
| Returned (written : string)
| Crashed (written : string) (msg : string)
| OutOfFuel.

Section Handler.

Variable CanonicalHeaderKey : string -> string.
Variable FormatTime : Time -> string.
Variable MIMETypeByExtension : string -> string.

(** The response the handler writes when it gives up on a request. *)
Definition badRequestBytes (w : World) (req : option Request) : string :=
  let res := handleBadRequest FormatTime w zeroResponse req in
  Write w res.

(** The body of the [for] loop of [handleClientConnections]. *)
Definition serveTurn (s : Server) (w : World) (br : Reader) : outcome Turn :=
  if negb (deadlineArmed w) then Ret (Closed "")
  else
    r <-! readRequest CanonicalHeaderKey br ;
    let '(rr, br') := r in
    match rr_err rr with
    | Some err =>
        if is_EOF err then Ret (Closed "")
        else if is_Timeout err then
          if rr_noReq rr then Ret (Closed "")
          else Ret (Closed (badRequestBytes w (rr_req rr)))
        else Ret (Closed (badRequestBytes w (rr_req rr)))
    | None =>
        match rr_req rr with
        | None => Panic "nil pointer dereference"
        | Some req =>
            res <-! handleGoodRequest FormatTime MIMETypeByExtension w s req ;
            let written := Write w res in
            if Close req then Ret (Closed written)
            else Ret (KeepAlive written br')
        end
    end.

(** The loop itself. [ws k] is the host as the [k]-th turn finds it. *)
Fixpoint serve (fuel : nat) (s : Server) (ws : nat -> World) (k : nat)
    (br : Reader) (written : string) : Run :=
  match fuel with
  | O => OutOfFuel
  | S fuel' =>
      match serveTurn s (ws k) br with
      | Panic msg => Crashed written msg
      | Ret (Closed out) => Returned (written ++ out)
      | Ret (KeepAlive out br') => serve fuel' s ws (S k) br' (written ++ out)
      end
  end.

(** [s.handleClientConnections(conn)]: every turn that goes round again
    has used up at least one line, so this much fuel is enough. *)
Definition handleClientConnections (s : Server) (ws : nat -> World) (conn : Conn) : Run :=
  let br := NewReader conn in
  serve (S (List.length (pending br))) s ws O br "".

End Handler.

(** ** Instances of the repository's utilities, for closed examples *)

Module Util.

Definition isLower (c : ascii) : bool :=
  let n := nat_of_ascii c in Nat.leb 97 n && Nat.leb n 122.

Definition isUpper (c : ascii) : bool :=
  let n := nat_of_ascii c in Nat.leb 65 n && Nat.leb n 90.

Definition toUpper (c : ascii) : ascii :=
  if isLower c then ascii_of_nat (nat_of_ascii c - 32) else c.

Definition toLower (c : ascii) : ascii :=
  if isUpper c then ascii_of_nat (nat_of_ascii c + 32) else c.

Fixpoint canonical (upper : bool) (s : string) : string :=
  match s with
  | EmptyString => EmptyString
  | String c s' =>
      String (if upper then toUpper c else toLower c)
             (canonical (Ascii.eqb c "-"%char) s')
  end.

(** Modelled from the spec: [CanonicalHeaderKey] is not part of the
    development; the spec has it capitalize each hyphen-separated segment
    and lowercase the remaining characters. *)
Definition CanonicalHeaderKey (s : string) : string := canonical true s.

(** Modelled from the spec: [FormatTime] is not part of the development and
    the spec only says that the timestamp format is fixed; this instance
    prints the instant as a decimal number of seconds. *)
Definition FormatTime (t : Time) : string := Sprint t.

(** Modelled from the spec: [MIMETypeByExtension] is not part of the
    development; the spec has it look the extension up in a static table and
    default to a generic octet type. *)
Definition MIMETypeByExtension (ext : string) : string :=
  if String.eqb ext ".html" then "text/html; charset=utf-8"
  else if String.eqb ext ".jpg" then "image/jpeg"
  else if String.eqb ext ".png" then "image/png"
  else "application/octet-stream".

End Util.

(** A host with one virtual host, one page, one directory and one file
    whose metadata cannot be read. *)
Module Example.

Definition server : Server :=
  mkServer ":8080" {[ "example.com" := "/srv/www" ]}.

Definition world : World :=
  mkWorld
    (fun path =>
       if String.eqb path "/srv/www/index.html" then StatOk (mkFileInfo false 5 1000)
       else if String.eqb path "/srv/www/img" then StatOk (mkFileInfo true 4096 900)
       else if String.eqb path "/srv/www/index.html/x" then StatError "not a directory"
       else StatNotExist)
    (fun path =>
       if String.eqb path "/srv/www/index.html" then Some "hello" else None)
    2000
    true.

Definition worlds : nat -> World := fun _ => world.

Definition request (url : string) (close : bool) : Request :=
  mkRequest "GET" url "HTTP/1.1"
            (if close
             then <["Connection" := "close"]> {[ "Host" := "example.com" ]}
             else {[ "Host" := "example.com" ]})
            "example.com" close.

Definition handle (conn : Conn) : Run :=
  handleClientConnections Util.CanonicalHeaderKey Util.FormatTime
                          Util.MIMETypeByExtension server worlds conn.

Definition turn (br : Reader) : outcome Turn :=
  serveTurn Util.CanonicalHeaderKey Util.FormatTime
            Util.MIMETypeByExtension server world br.

Definition good (req : Request) : outcome Response :=
  handleGoodRequest Util.FormatTime Util.MIMETypeByExtension world server req.

Definition bad : string := badRequestBytes Util.FormatTime world None.

End Example.

(** * Definitions the properties are stated with *)

(** A relative location that leaves the base directory: [..] itself or a
    path whose first element is [..]. A failed [Rel] counts as outside. *)
Definition outsideBase (r : option string) : bool :=
  match r with
  | None => true
  | Some rel => String.eqb rel ".." || HasPrefix rel "../"
  end.

(** The three ways [readRequest] returns. *)
Inductive readCase (canon : string -> string) (br : Reader)
  : ReadResult -> Reader -> Prop :=
| NothingRead :
    pending br = [] ->
    readCase canon br (mkReadResult None true (Some (final br))) br
| Failed line rest e br' :
    pending br = line :: rest ->
    (List.length (pending br') <= List.length rest)%nat ->
    final br' = final br ->
    (e = final br \/ exists msg, e = Errorf msg) ->
    readCase canon br (mkReadResult None false (Some e)) br'
| Parsed line rest url hdrs hostVal rest' :
    pending br = line :: rest ->
    SplitN line " " 3 = ["GET"; url; "HTTP/1.1"] ->
    HasPrefix url "/" = true ->
    readHeaders canon rest (final br) ∅ = Ret (inr hdrs, rest') ->
    (List.length rest' < List.length rest)%nat ->
    hdrs !! "Host" = Some hostVal ->
    readCase canon br
      (mkReadResult
         (Some (mkRequest "GET" url "HTTP/1.1" hdrs hostVal
                  (match hdrs !! "Connection" with
                   | Some v => String.eqb v "close"
                   | None => false
                   end)))
         false None)
      (mkReader rest' (final br)).

(** The [Connection] header of the baseline: [close] when the request
    exists and asked for it, absent otherwise. *)
Definition closeHeader (req : option Request) : option string :=
  match req with
  | Some r => if Close r then Some "close" else None
  | None => None
  end.

(** The name and the value [readRequest] stores for a header line: the
    piece before the first colon, canonicalized, and the piece between the
    first colon and the second one, if any, without its leading spaces. *)
Definition headerName (line : string) : string := nth 0 (Split line ":") "".
Definition headerValue (line : string) : string :=
  TrimLeft (nth 1 (Split line ":") "") " ".

(** The value the wire format gives the line: everything after the first
    colon, without its leading spaces. *)
Definition valueAfterFirstColon (line : string) : string :=
  match Cut line ":" with
  | Some (_, after) => TrimLeft after " "
  | None => ""
  end.

(** The header lines up to the empty line that ends the block, and the lines
    after that empty line; [None] when the source has no empty line. *)
Fixpoint headerBlock (pend : list string) : list string * option (list string) :=
  match pend with
  | [] => ([], None)
  | line :: rest =>
      if String.eqb line "" then ([], Some rest)
      else let '(block, after) := headerBlock rest in (line :: block, after)
  end.

(** One round of the header loop on the header map. *)
Definition addHeader (canon : string -> string) (hdrs : gmap string string)
    (line : string) : gmap string string :=
  <[canon (headerName line) := headerValue line]> hdrs.

(** The reasons for a 400, as the specification lists them. The request
    line is split the way [parseRequestLine] splits it: at its first two
    spaces, into at most three fields. A header line is one before the empty
    line that ends the block. *)
Definition fieldsOf (line : string) : list string := SplitN line " " 3.
Definition notThreeFields (line : string) : bool :=
  negb (Nat.eqb (List.length (fieldsOf line)) 3).
Definition badMethod (line : string) : bool :=
  negb (String.eqb (nth 0 (fieldsOf line) "") "GET").
Definition badTarget (line : string) : bool :=
  negb (HasPrefix (nth 1 (fieldsOf line) "") "/").
Definition badVersion (line : string) : bool :=
  negb (String.eqb (nth 2 (fieldsOf line) "") "HTTP/1.1").
Definition headerWithoutColon (rest : list string) : bool :=
  existsb (fun line => negb (Contains line ":")) (fst (headerBlock rest)).
Definition hostMissing (canon : string -> string) (rest : list string) : bool :=
  match snd (headerBlock rest) with
  | Some _ =>
      negb (existsb (fun line => String.eqb (canon (headerName line)) "Host")
                    (fst (headerBlock rest)))
  | None => false
  end.

(** One of the six reasons holds. *)
Definition badRequestReason (canon : string -> string) (pend : list string) : bool :=
  match pend with
  | [] => false
  | line :: rest =>
      notThreeFields line || badMethod line || badTarget line || badVersion line
      || headerWithoutColon rest || hostMissing canon rest
  end.

(** The source stops before the empty line that ends the header block. *)
Definition endsEarly (pend : list string) : bool :=
  match pend with
  | [] => true
  | _ :: rest => match snd (headerBlock rest) with None => true | Some _ => false end
  end.

(** The one request line on which the parser panics: three fields, the
    supported method, an empty target. *)
Definition emptyTarget (pend : list string) : bool :=
  match pend with
  | [] => false
  | line :: _ =>
      Nat.eqb (List.length (fieldsOf line)) 3
      && String.eqb (nth 0 (fieldsOf line) "") "GET"
      && String.eqb (nth 1 (fieldsOf line) "") ""
  end.

(** ** Reading a written response back

    The repository has no response parser. The one below follows the wire
    format of the specification: lines end in CRLF; the status line is
    [<version> <code> <reason>]; a header line is split on its first colon
    and the value loses its leading spaces; an empty line ends the block. *)

(** Drop one trailing ["\r"]. *)
Fixpoint trimCR (s : string) : string :=
  match s with
  | EmptyString => EmptyString
  | String a s' =>
      match s' with
      | EmptyString => if Ascii.eqb a CR then EmptyString else s
      | _ => String a (trimCR s')
      end
  end.

(** The lines of a byte string: cut at every line feed, less the carriage
    return before it. *)
Definition wireLines (s : string) : list string := map trimCR (Split s LF).

(** A decimal number. *)
Definition parseInt (s : string) : option Z :=
  option_map Z.of_int (NilZero.int_of_string s).

(** [<version> <code> <reason>]. *)
Definition parseStatusLine (line : string) : option (string * Z * string) :=
  match SplitN line " " 3 with
  | [version; code; reason] =>
      match parseInt code with
      | Some n => Some (version, n, reason)
      | None => None
      end
  | _ => None
  end.

(** [<Name>:<spaces><Value>], line after line. *)
Fixpoint parseHeaderLines (lines : list string) (acc : gmap string string)
  : option (gmap string string) :=
  match lines with
  | [] => Some acc
  | line :: rest =>
      match Cut line ":" with
      | Some (name, value) => parseHeaderLines rest (<[name := TrimLeft value " "]> acc)
      | None => None
      end
  end.

(** The status code and the header set of a serialized response. *)
Definition parseResponse (s : string) : option (Z * gmap string string) :=
  match wireLines s with
  | [] => None
  | statusLine :: rest =>
      match parseStatusLine statusLine, headerBlock rest with
      | Some (_, code, _), (block, Some _) =>
          match parseHeaderLines block ∅ with
          | Some hdrs => Some (code, hdrs)
          | None => None
          end
      | _, _ => None
      end
  end.

(** A header that survives the wire: no colon and no line feed in the name,
    no line feed in the value and no space at its start. *)
Definition safeValue (v : string) : bool :=
  negb (Contains v LF) && negb (HasPrefix v " ").
Definition safeHeader (kv : string * string) : bool :=
  negb (Contains (fst kv) ":") && negb (Contains (fst kv) LF) && safeValue (snd kv).
Definition wireSafe (res : Response) : bool :=
  negb (Contains (ResProto res) " ") && negb (Contains (ResProto res) LF)
  && forallb safeHeader (map_to_list (ResHeaders res)).

(** A written header line without its CRLF. *)
Definition headerText (m : gmap string string) (k : string) : string :=
  k ++ ": " ++ mapGet m k.

(** The bytes [fmt.Sprint] prints an integer with. *)
Definition decimalChar (c : ascii) : bool :=
  existsb (fun d => Ascii.eqb d c)
          ["0"; "1"; "2"; "3"; "4"; "5"; "6"; "7"; "8"; "9"; "-"]%char.

(** ** Connections as bytes, and runs of the handler *)

(** The bytes of a list of lines, each followed by CRLF. *)
Definition wire (lines : list string) : string :=
  writeAll (map (fun l => l ++ CRLF) lines).

(** A line the reader hands out whole: no line feed in it, and room in the
    buffer for the line and its CRLF. *)
Definition shortLine (l : string) : bool :=
  negb (Contains l LF) && Nat.ltb (String.length l + 1) defaultBufSize.

(** A run that comes after [out] was written. *)
Definition prepend (out : string) (r : Run) : Run :=
  match r with
  | Returned written => Returned (out ++ written)
  | Crashed written msg => Crashed (out ++ written) msg
  | OutOfFuel => OutOfFuel
  end.

(** What a run wrote. *)
Definition writtenBy (r : Run) : string :=
  match r with
  | Returned written => written
  | Crashed written _ => written
  | OutOfFuel => ""
  end.

(** The bytes of responses written one after the other, each on the host as
    it was when the response was built. *)
Definition writeResponses (rs : list (World * Response)) : string :=
  writeAll (map (fun wr => Write (fst wr) (snd wr)) rs).

(** A response of the server: the protocol version and one of the three
    status codes. *)
Definition knownResponse (wr : World * Response) : bool :=
  String.eqb (ResProto (snd wr)) responseProto
  && ((StatusCode (snd wr) =? statusOK) || (StatusCode (snd wr) =? statusBadRequest)
      || (StatusCode (snd wr) =? statusNotFound)).

(** The size [os.Stat] reports for a file is the number of bytes the file
    gives when it is read. *)
Definition sizesAgree (w : World) : Prop :=
  forall path fi content,
    stat w path = StatOk fi -> readFile w path = Some content ->
    Size fi = Z.of_nat (String.length content).

(** * Properties *)

(** ** Indexing *)

Lemma get_in_range (s : string) (n : nat) :
  (n < String.length s)%nat -> exists c, String.get n s = Some c.
Proof.
  revert n. induction s as [|a s IH]; intros n Hn; simpl in *.
  - lia.
  - destruct n as [|n]; [eauto|]. apply IH. lia.
Qed.

Lemma byteAt_in_range (s : string) (i : Z) :
  0 <= i < Z.of_nat (String.length s) -> exists c, byteAt s i = Ret c.
Proof.
  intros [Hlo Hhi]. unfold byteAt.
  destruct (i <? 0) eqn:E1; [apply Z.ltb_lt in E1; lia|].
  destruct (Z.of_nat (String.length s) <=? i) eqn:E2; [apply Z.leb_le in E2; lia|].
  simpl. destruct (get_in_range s (Z.to_nat i)) as [c Hc]; [lia|].
  rewrite Hc. eauto.
Qed.

Lemma byteAt_out_of_range (s : string) (i : Z) :
  i < 0 \/ Z.of_nat (String.length s) <= i ->
  byteAt s i = Panic "index out of range".
Proof.
  intros H. unfold byteAt.
  destruct (i <? 0) eqn:E1; [reflexivity|].
  destruct (Z.of_nat (String.length s) <=? i) eqn:E2; [reflexivity|].
  apply Z.ltb_ge in E1. apply Z.leb_gt in E2. lia.
Qed.

Lemma HasPrefix_slash_nonempty (url : string) :
  HasPrefix url "/" = true -> (0 < String.length url)%nat.
Proof. destruct url; simpl; [discriminate|lia]. Qed.

Lemma indexTarget_total (url : string) :
  HasPrefix url "/" = true -> exists url', indexTarget url = Ret url'.
Proof.
  intros H. apply HasPrefix_slash_nonempty in H.
  unfold indexTarget.
  destruct (byteAt_in_range url (Z.of_nat (String.length url) - 1)) as [c Hc]; [lia|].
  rewrite Hc. simpl. eauto.
Qed.

(** ** The parser on an empty target *)

Lemma readRequest_empty_target canon (line v : string) (rest : list string)
    (fin : error) :
  SplitN line " " 3 = ["GET"; ""; v] ->
  readRequest canon (mkReader (line :: rest) fin) = Panic "index out of range".
Proof.
  intros H. unfold readRequest, readLine, parseRequestLine.
  cbn [pending final]. rewrite H. reflexivity.
Qed.

(** C9. The request line ["GET  HTTP/1.1"] (two spaces) splits into the
    three fields ["GET"], [""] and ["HTTP/1.1"], so [parseRequestLine]
    accepts it; [readRequest] then reads byte 0 of the empty target, which
    is out of range: it panics and never reaches its "Invalid URL" error.
    Reading byte 0 is safe exactly for a non-empty target. *)
Theorem C9_empty_target_index_out_of_range :
  exists line : string,
    parseRequestLine line = (["GET"; ""; "HTTP/1.1"], None) /\
    (forall canon rest fin,
        readRequest canon (mkReader (line :: rest) fin)
        = Panic "index out of range") /\
    byteAt "" 0 = Panic "index out of range" /\
    (forall url : string, url <> "" -> exists c, byteAt url 0 = Ret c).
Proof.
  exists "GET  HTTP/1.1". split; [reflexivity|]. split.
  - intros canon rest fin. now apply readRequest_empty_target with (v := "HTTP/1.1").
  - split; [reflexivity|].
    intros url Hne. apply byteAt_in_range.
    destruct url; [congruence|]. simpl. lia.
Qed.

(** ** The resolver *)

Lemma outsideBase_prefix (rel : string) :
  outsideBase (Some rel) = true -> HasPrefix rel ".." = true.
Proof.
  unfold outsideBase, HasPrefix. intros H.
  apply orb_true_iff in H as [H|H].
  - apply String.eqb_eq in H. subst. reflexivity.
  - destruct rel as [|a [|b r]]; simpl in *; try discriminate.
    + now rewrite andb_false_r in H.
    + destruct (Ascii.eqb a "."); [|discriminate].
      destruct (Ascii.eqb b "."); [|discriminate].
      destruct r; reflexivity.
Qed.

Section ResolverFacts.

Variable FormatTime : Time -> string.
Variable MIMETypeByExtension : string -> string.
Variable w : World.
Variable s : Server.

Local Abbreviation handleGoodRequest := (handleGoodRequest FormatTime MIMETypeByExtension w s).
Local Abbreviation resolve := (resolve FormatTime MIMETypeByExtension w s).
Local Abbreviation handleNotFound := (handleNotFound FormatTime w).

Lemma handleNotFound_fields (res : Response) (req : option Request) :
  let r := handleNotFound res req in
  StatusCode r = statusNotFound /\ StatusText r = "Not Found" /\
  FilePath r = "" /\ writeBody w r = "".
Proof. repeat split. Qed.

Lemma resolve_outside (req : Request) :
  let docroot := mapGet (VirtualHosts s) (Host req) in
  outsideBase (Filepath.Rel docroot (Filepath.JoinPath [docroot; URL req])) = true ->
  resolve req = Ret (handleNotFound zeroResponse (Some req)).
Proof.
  intros docroot H. unfold resolve. fold docroot.
  destruct (Filepath.Rel docroot (Filepath.JoinPath [docroot; URL req])) as [rel|];
    [|reflexivity].
  now rewrite (outsideBase_prefix _ H).
Qed.

(** What [resolve] does once the path is inside the base directory: it
    depends on [os.Stat] alone. *)
Lemma resolve_inside (req : Request) (rel : string) :
  let docroot := mapGet (VirtualHosts s) (Host req) in
  let path := Filepath.JoinPath [docroot; URL req] in
  Filepath.Rel docroot path = Some rel ->
  HasPrefix rel ".." = false ->
  resolve req =
    match stat w path with
    | StatNotExist => Ret (handleNotFound zeroResponse (Some req))
    | StatError _ => Panic "nil pointer dereference"
    | StatOk fi =>
        if IsDir fi then Ret (handleNotFound zeroResponse (Some req))
        else handleOK FormatTime MIMETypeByExtension w
                      (withFilePath zeroResponse path) (Some req)
    end.
Proof.
  intros docroot path Hrel Hpre. unfold resolve. fold docroot. fold path.
  now rewrite Hrel, Hpre.
Qed.

Lemma handleOK_after_stat (path : string) (req : option Request) (fi : FileInfo) :
  stat w path = StatOk fi ->
  exists res,
    handleOK FormatTime MIMETypeByExtension w (withFilePath zeroResponse path) req
    = Ret res /\ StatusCode res = statusOK /\ FilePath res = path.
Proof.
  intros H. unfold handleOK. cbn [FilePath init withFilePath]. rewrite H.
  eexists. repeat split.
Qed.

(** The resolver returns a response unless [os.Stat] fails with an error
    other than "not exist". *)
Lemma handleGoodRequest_returns (req : Request) :
  HasPrefix (URL req) "/" = true ->
  (forall path msg, stat w path <> StatError msg) ->
  exists res, handleGoodRequest req = Ret res.
Proof.
  intros Hvalid Hstat. destruct (indexTarget_total _ Hvalid) as [url' Hu].
  unfold handleGoodRequest. rewrite Hu. cbn [bind]. unfold resolve.
  destruct (Filepath.Rel _ _) as [rel|]; [|eauto].
  destruct (HasPrefix rel ".."); [eauto|].
  destruct (stat w _) as [fi| |msg] eqn:Hst.
  - destruct (IsDir fi); [eauto|].
    destruct (handleOK_after_stat _ (Some (withURL req url')) fi Hst)
      as (res & Hres & _).
    eauto.
  - eauto.
  - exfalso. eapply Hstat; eauto.
Qed.

End ResolverFacts.

(** C1. For a validated request (its target begins with a slash), when the
    joined path lies outside the virtual host's base directory, or its
    relative location cannot be computed, [handleGoodRequest] returns the
    404 "Not Found" response with no file to serve, whatever the host's
    files are; the status is never 200. *)
Theorem C1_traversal_is_not_found FormatTime MIMETypeByExtension
    (w : World) (s : Server) (req : Request) :
  HasPrefix (URL req) "/" = true ->
  exists url',
    indexTarget (URL req) = Ret url' /\
    let docroot := mapGet (VirtualHosts s) (Host req) in
    (outsideBase (Filepath.Rel docroot (Filepath.JoinPath [docroot; url'])) = true ->
     exists res,
       handleGoodRequest FormatTime MIMETypeByExtension w s req = Ret res /\
       StatusCode res = statusNotFound /\ StatusText res = "Not Found" /\
       FilePath res = "" /\ writeBody w res = "" /\
       StatusCode res <> statusOK).
Proof.
  intros Hvalid. destruct (indexTarget_total _ Hvalid) as [url' Hu].
  exists url'. split; [exact Hu|]. intros docroot Hout.
  exists (handleNotFound FormatTime w zeroResponse (Some (withURL req url'))).
  split.
  - unfold handleGoodRequest. rewrite Hu. cbn [bind].
    now apply resolve_outside.
  - repeat split. discriminate.
Qed.

(** The target [/../../etc/passwd] against the base directory [/srv/www]. *)
Lemma C1_traversal_witness :
  exists res,
    Example.good (Example.request "/../../etc/passwd" false) = Ret res /\
    StatusCode res = 404 /\ FilePath res = "".
Proof.
  destruct (C1_traversal_is_not_found Util.FormatTime Util.MIMETypeByExtension
              Example.world Example.server
              (Example.request "/../../etc/passwd" false) eq_refl)
    as [url' [Hu H]].
  vm_compute in Hu. injection Hu as <-.
  destruct (H eq_refl) as [res [Hres [Hcode [_ [Hpath _]]]]].
  exists res. auto.
Defined.

(** C10. A validated request whose resolved path is inside the base
    directory but whose [os.Stat] fails with an error other than
    "not exist" makes [handleGoodRequest] call [IsDir] on the nil
    [FileInfo]: it panics. The call is safe exactly when [os.Stat]
    succeeds or reports "not exist". *)
Theorem C10_stat_error_nil_fileinfo :
  (exists (w : World) (s : Server) (req : Request) (msg : string),
      HasPrefix (URL req) "/" = true /\
      stat w (Filepath.JoinPath [mapGet (VirtualHosts s) (Host req); URL req])
      = StatError msg /\
      handleGoodRequest Util.FormatTime Util.MIMETypeByExtension w s req
      = Panic "nil pointer dereference") /\
  (forall FormatTime MIMETypeByExtension (w : World) (s : Server)
          (req : Request) (url' rel : string),
      indexTarget (URL req) = Ret url' ->
      let docroot := mapGet (VirtualHosts s) (Host req) in
      let path := Filepath.JoinPath [docroot; url'] in
      Filepath.Rel docroot path = Some rel ->
      HasPrefix rel ".." = false ->
      (forall msg, stat w path = StatError msg ->
          handleGoodRequest FormatTime MIMETypeByExtension w s req
          = Panic "nil pointer dereference") /\
      (stat w path = StatNotExist \/ (exists fi, stat w path = StatOk fi) ->
       exists res,
         handleGoodRequest FormatTime MIMETypeByExtension w s req = Ret res)).
Proof.
  split.
  - exists Example.world, Example.server,
      (Example.request "/index.html/x" false), "not a directory".
    repeat split.
  - intros FormatTime MIMETypeByExtension w s req url' rel Hu docroot path Hrel Hpre.
    assert (Hres : handleGoodRequest FormatTime MIMETypeByExtension w s req
                   = resolve FormatTime MIMETypeByExtension w s (withURL req url')).
    { unfold handleGoodRequest. now rewrite Hu. }
    rewrite Hres.
    rewrite (resolve_inside FormatTime MIMETypeByExtension w s (withURL req url') rel Hrel Hpre).
    cbn [withURL Host URL]. fold docroot. fold path.
    split.
    + intros msg Hst. now rewrite Hst.
    + intros [Hst|[fi Hst]]; rewrite Hst; [eauto|].
      destruct (IsDir fi); [eauto|].
      destruct (handleOK_after_stat FormatTime MIMETypeByExtension w path
                  (Some (withURL req url')) fi Hst) as [res [Hok _]].
      eauto.
Qed.

(** ** Splitting *)

Lemma Cut_Split (s : string) (c : ascii) (before after : string) :
  Cut s c = Some (before, after) -> Split s c = before :: Split after c.
Proof.
  revert before. induction s as [|a s IH]; intros before H; simpl in *; [discriminate|].
  destruct (Ascii.eqb a c).
  - now injection H as <- <-.
  - destruct (Cut s c) as [[b' a']|]; [|discriminate].
    injection H as <- <-. now rewrite (IH b' eq_refl).
Qed.

Lemma Cut_None_Split (s : string) (c : ascii) :
  Cut s c = None -> Split s c = [s].
Proof.
  induction s as [|a s IH]; intros H; simpl in *; [reflexivity|].
  destruct (Ascii.eqb a c); [discriminate|].
  destruct (Cut s c) as [[b' a']|]; [discriminate|]. now rewrite IH.
Qed.

Lemma Contains_Cut (s : string) (c : ascii) :
  Contains s c = true <-> exists before after, Cut s c = Some (before, after).
Proof.
  induction s as [|a s IH]; simpl.
  - split; [discriminate|]. intros (? & ? & ?). discriminate.
  - destruct (Ascii.eqb a c); [split; eauto|].
    rewrite IH. split; intros (b' & a' & H).
    + rewrite H. eauto.
    + destruct (Cut s c) as [[? ?]|]; [eauto|discriminate].
Qed.

Lemma Split_nonempty (s : string) (c : ascii) :
  exists piece rest, Split s c = piece :: rest.
Proof.
  destruct (Cut s c) as [[b a]|] eqn:E.
  - rewrite (Cut_Split _ _ _ _ E). eauto.
  - rewrite (Cut_None_Split _ _ E). eauto.
Qed.

(** A line with a colon splits into at least two pieces, so [header[0]]
    and [header[1]] are in range. *)
Lemma Contains_Split (s : string) (c : ascii) :
  Contains s c = true ->
  exists before after piece rest,
    Cut s c = Some (before, after) /\ Split after c = piece :: rest /\
    Split s c = before :: piece :: rest.
Proof.
  intros H. apply Contains_Cut in H as (before & after & H).
  destruct (Split_nonempty after c) as (piece & rest & Hs).
  exists before, after, piece, rest. repeat split; [exact H|exact Hs|].
  rewrite (Cut_Split _ _ _ _ H). now rewrite Hs.
Qed.

Lemma byteAt_0 (s : string) (c : ascii) :
  byteAt s 0 = Ret c -> exists s', s = String c s'.
Proof.
  destruct s as [|a s']; unfold byteAt; simpl; [discriminate|].
  intros H. injection H as <-. eauto.
Qed.

Lemma byteAt_cons_0 (c : ascii) (s : string) : byteAt (String c s) 0 = Ret c.
Proof. reflexivity. Qed.

Lemma one_byte_eqb (c d : ascii) :
  String.eqb (String c EmptyString) (String d EmptyString) = Ascii.eqb c d.
Proof. simpl. now destruct (Ascii.eqb c d). Qed.

(** ** The parser *)

Section ParserFacts.

Variable CanonicalHeaderKey : string -> string.


(** The header loop never panics, and it uses up at least the line that
    ends it. *)
Lemma readHeaders_returns (pend : list string) (fin : error)
    (hdrs : gmap string string) :
  exists r rest,
    readHeaders CanonicalHeaderKey pend fin hdrs = Ret (r, rest) /\
    (List.length rest <= List.length pend)%nat /\
    (forall h, r = inr h -> (List.length rest < List.length pend)%nat) /\
    (forall e, r = inl e -> e = fin \/ exists msg, e = Errorf msg).
Proof.
  revert hdrs. induction pend as [|line pend IH]; intros hdrs; simpl.
  - exists (inl fin), []. split; [reflexivity|]. simpl. split; [lia|].
    split; [discriminate|]. intros e He. injection He as <-. now left.
  - destruct (String.eqb line "").
    + exists (inr hdrs), pend. split; [reflexivity|]. simpl.
      split; [lia|]. split; [intros; lia|discriminate].
    + destruct (Contains line ":") eqn:Hc; simpl.
      * destruct (Contains_Split _ _ Hc) as (b & a & p & l & _ & _ & Hs).
        rewrite Hs. simpl.
        destruct (IH (<[CanonicalHeaderKey b := TrimLeft p " "]> hdrs))
          as (r & rest & Hr & Hle & Hlt & He).
        exists r, rest. split; [exact Hr|]. split; [lia|]. split; [|exact He].
        intros h Hh. specialize (Hlt h Hh). lia.
      * exists (inl (Errorf "400: Invalid header")), pend.
        split; [reflexivity|]. simpl. split; [lia|]. split; [discriminate|].
        intros e He. injection He as <-. eauto.
Qed.

Lemma readRequest_cases (br : Reader) (rr : ReadResult) (br' : Reader) :
  readRequest CanonicalHeaderKey br = Ret (rr, br') ->
  readCase CanonicalHeaderKey br rr br'.
Proof.
  unfold readRequest, readLine.
  destruct (pending br) as [|line rest] eqn:Hp.
  - unfold failRead. intros H. injection H as <- <-. now constructor.
  - unfold parseRequestLine, failRead.
    destruct (Nat.eqb (List.length (SplitN line " " 3)) 3) eqn:Hlen; cbn [negb].
    2:{ intros H. injection H as <- <-.
        eapply Failed; eauto. }
    apply Nat.eqb_eq in Hlen.
    destruct (SplitN line " " 3) as [|method [|url [|proto [|x l]]]] eqn:Hs;
      try discriminate.
    cbn [elemAt nth_error bind].
    destruct (String.eqb method "GET") eqn:Hm; cbn [negb].
    2:{ intros H. injection H as <- <-. eapply Failed; eauto. }
    apply String.eqb_eq in Hm. subst method.
    destruct (byteAt url 0) as [c|msg] eqn:Hb; cbn [bind]; [|discriminate].
    rewrite one_byte_eqb.
    destruct (Ascii.eqb c "/") eqn:Hc; cbn [negb].
    2:{ intros H. injection H as <- <-. eapply Failed; eauto. }
    apply Ascii.eqb_eq in Hc. subst c.
    apply byteAt_0 in Hb as [url' ->].
    destruct (String.eqb proto "HTTP/1.1") eqn:Hpr; cbn [negb].
    2:{ intros H. injection H as <- <-. eapply Failed; eauto. }
    apply String.eqb_eq in Hpr. subst proto.
    cbn [pending final].
    destruct (readHeaders_returns rest (final br) ∅) as (r & rest' & Hr & Hle & Hlt & He).
    rewrite Hr. cbn [bind].
    destruct r as [e|hdrs].
    + intros H. injection H as <- <-. eapply Failed; eauto.
    + destruct (hdrs !! "Host") as [hostVal|] eqn:Hh.
      * intros H. injection H as <- <-.
        eapply Parsed; eauto.
      * intros H. injection H as <- <-. eapply Failed; eauto.
Qed.

End ParserFacts.

(** ** The builders *)

Section BuilderFacts.

Variable FormatTime : Time -> string.
Variable MIMETypeByExtension : string -> string.
Variable w : World.

Lemma init_connection (res : Response) (req : option Request) :
  ResHeaders (init FormatTime w res req) !! "Connection" = closeHeader req.
Proof.
  unfold init, closeHeader. cbn [ResHeaders].
  destruct req as [r|]; [destruct (Close r)|]; now simplify_map_eq.
Qed.

Lemma handleNotFound_connection (res : Response) (req : option Request) :
  ResHeaders (handleNotFound FormatTime w res req) !! "Connection" = closeHeader req.
Proof. unfold handleNotFound. cbn [ResHeaders]. apply init_connection. Qed.

Lemma handleOK_connection (res res' : Response) (req : option Request) :
  handleOK FormatTime MIMETypeByExtension w res req = Ret res' ->
  ResHeaders res' !! "Connection" = closeHeader req.
Proof.
  unfold handleOK. destruct (stat w _); try discriminate.
  intros H. injection H as <-. cbn [ResHeaders].
  rewrite !lookup_insert_ne by discriminate. exact (init_connection res req).
Qed.

Lemma handleBadRequest_fields (res : Response) (req : option Request) :
  let r := handleBadRequest FormatTime w res req in
  StatusCode r = statusBadRequest /\ StatusText r = "Bad Request" /\
  ResHeaders r !! "Connection" = Some "close" /\
  FilePath r = "" /\ writeBody w r = "" /\
  writeStatusLine r = "HTTP/1.1 400 Bad Request" ++ CRLF.
Proof.
  cbn zeta. unfold handleBadRequest. cbn [StatusCode StatusText ResHeaders FilePath].
  repeat split. now simplify_map_eq.
Qed.

Lemma handleGoodRequest_connection (s : Server) (req : Request) (res : Response) :
  handleGoodRequest FormatTime MIMETypeByExtension w s req = Ret res ->
  ResHeaders res !! "Connection" = if Close req then Some "close" else None.
Proof.
  unfold handleGoodRequest.
  destruct (indexTarget (URL req)) as [url'|]; cbn [bind]; [|discriminate].
  unfold resolve. set (r := withURL req url').
  assert (Hc : closeHeader (Some r) = if Close req then Some "close" else None)
    by reflexivity.
  destruct (Filepath.Rel _ _) as [rel|].
  2:{ intros H. injection H as <-. rewrite <- Hc. apply handleNotFound_connection. }
  destruct (HasPrefix rel "..").
  { intros H. injection H as <-. rewrite <- Hc. apply handleNotFound_connection. }
  destruct (stat w _) as [fi| |msg]; try discriminate.
  - destruct (IsDir fi).
    + intros H. injection H as <-. rewrite <- Hc. apply handleNotFound_connection.
    + intros H. rewrite <- Hc. eapply handleOK_connection; eauto.
  - intros H. injection H as <-. rewrite <- Hc. apply handleNotFound_connection.
Qed.

End BuilderFacts.

(** ** The connection handler *)

Section HandlerFacts.

Variable CanonicalHeaderKey : string -> string.
Variable FormatTime : Time -> string.
Variable MIMETypeByExtension : string -> string.
Variable s : Server.

Local Abbreviation turn := (serveTurn CanonicalHeaderKey FormatTime MIMETypeByExtension s).
Local Abbreviation loop fuel := (serve CanonicalHeaderKey FormatTime MIMETypeByExtension fuel s).

(** The turn after a failed read or parse: nothing is written on end of
    stream and on a deadline that expired before the first line; otherwise
    the 400 response is written. The connection is closed in all cases. *)
Lemma turn_on_error (w : World) (br br' : Reader) (rr : ReadResult) (e : error) :
  deadlineArmed w = true ->
  readRequest CanonicalHeaderKey br = Ret (rr, br') ->
  rr_err rr = Some e ->
  rr_req rr = None /\
  turn w br =
    Ret (Closed (if is_EOF e then ""
                 else if is_Timeout e && rr_noReq rr then ""
                 else badRequestBytes FormatTime w None)).
Proof.
  intros Hd Hr He. unfold serveTurn. rewrite Hd, Hr. cbn [negb bind].
  apply readRequest_cases in Hr.
  destruct Hr; cbn [rr_err rr_req rr_noReq] in *; try discriminate;
    injection He as ->; (split; [reflexivity|]);
    destruct (is_EOF e); [reflexivity| |reflexivity|];
    destruct (is_Timeout e); reflexivity.
Qed.

(** The turn after a request was parsed and a response was built. *)
Lemma turn_on_request (w : World) (br br' : Reader) (rr : ReadResult)
    (req : Request) (res : Response) :
  deadlineArmed w = true ->
  readRequest CanonicalHeaderKey br = Ret (rr, br') ->
  rr_req rr = Some req ->
  handleGoodRequest FormatTime MIMETypeByExtension w s req = Ret res ->
  turn w br =
    Ret (if Close req then Closed (Write w res) else KeepAlive (Write w res) br').
Proof.
  intros Hd Hr Hq Hg. unfold serveTurn. rewrite Hd, Hr. cbn [negb bind].
  apply readRequest_cases in Hr.
  destruct Hr; cbn [rr_err rr_req] in *; try discriminate.
  injection Hq as <-. rewrite Hg. cbn [bind Close].
  now destruct (match hdrs !! "Connection" with Some v => _ | None => _ end).
Qed.

(** A turn that goes round again has used up at least one line. *)
Lemma turn_keep_alive_shorter (w : World) (br br' : Reader) (out : string) :
  turn w br = Ret (KeepAlive out br') ->
  (List.length (pending br') < List.length (pending br))%nat.
Proof.
  unfold serveTurn. destruct (deadlineArmed w); cbn [negb]; [|discriminate].
  destruct (readRequest CanonicalHeaderKey br) as [[rr br1]|] eqn:Hr;
    cbn [bind]; [|discriminate].
  apply readRequest_cases in Hr.
  destruct Hr as [Hp|line rest e br2 Hp Hle Hfin He
                 |line rest url hdrs hostVal rest' Hp Hs Hu Hh Hlt Hhost];
    cbn [rr_err rr_req rr_noReq].
  - destruct (is_EOF _); [discriminate|]. destruct (is_Timeout _); discriminate.
  - destruct (is_EOF _); [discriminate|]. destruct (is_Timeout _); discriminate.
  - destruct (handleGoodRequest _ _ _ _ _); cbn [bind]; [|discriminate].
    cbn [Close]. destruct (match hdrs !! "Connection" with Some v => _ | None => _ end);
      [discriminate|].
    intros Hk. injection Hk as _ <-. cbn [pending]. rewrite Hp. simpl. lia.
Qed.

(** The handler's loop ends: with one unit of fuel per pending line, and
    one more, it never runs out. *)
Lemma serve_enough_fuel (ws : nat -> World) (fuel k : nat) (br : Reader)
    (out : string) :
  (List.length (pending br) < fuel)%nat -> loop fuel ws k br out <> OutOfFuel.
Proof.
  revert k br out. induction fuel as [|fuel IH]; intros k br out Hlt; [lia|].
  cbn [serve].
  destruct (turn (ws k) br) as [[o|o br']|msg] eqn:Ht; try discriminate.
  apply IH. apply turn_keep_alive_shorter in Ht. lia.
Qed.

End HandlerFacts.

Lemma handleClientConnections_returns canon fmt mime s ws conn :
  handleClientConnections canon fmt mime s ws conn <> OutOfFuel.
Proof. unfold handleClientConnections. apply serve_enough_fuel. lia. Qed.

(** ** The line reader *)

Lemma scanLines_nil (s acc : string) (n : nat) :
  scanLines s acc n = [] <-> s = "" /\ acc = "".
Proof.
  split.
  - revert acc n. induction s as [|b s' IH]; intros acc n; cbn [scanLines].
    + destruct acc; [auto|discriminate].
    + destruct (Ascii.eqb b LF); [discriminate|].
      destruct (Nat.eqb (S n) defaultBufSize).
      * destruct (Ascii.eqb b CR); discriminate.
      * intros H. apply IH in H as [_ H]. discriminate.
  - intros [-> ->]. reflexivity.
Qed.

(** The reader has no line to give exactly when the connection delivers
    no byte at all. *)
Lemma NewReader_nothing (conn : Conn) :
  pending (NewReader conn) = [] <-> incoming conn = "".
Proof.
  unfold NewReader. cbn [pending]. rewrite scanLines_nil. tauto.
Qed.

Lemma readRequest_nothing canon (br : Reader) :
  pending br = [] ->
  readRequest canon br = Ret (mkReadResult None true (Some (final br)), br).
Proof. intros H. unfold readRequest, readLine. now rewrite H. Qed.

(** ** Header lines *)

Lemma readHeaders_step canon (line : string) (rest : list string) (fin : error)
    (hdrs : gmap string string) :
  line <> "" ->
  Contains line ":" = true ->
  readHeaders canon (line :: rest) fin hdrs
  = readHeaders canon rest fin
      (<[canon (headerName line) := headerValue line]> hdrs).
Proof.
  intros Hne Hc. cbn [readHeaders].
  apply String.eqb_neq in Hne. rewrite Hne, Hc. cbn [negb].
  unfold headerName, headerValue.
  destruct (Contains_Split _ _ Hc) as (b & a & p & l & _ & _ & ->).
  reflexivity.
Qed.

(** Without a second colon the stored value is the whole remainder. *)
Lemma headerValue_one_colon (line before after : string) :
  Cut line ":" = Some (before, after) ->
  Contains after ":" = false ->
  headerName line = before /\ headerValue line = valueAfterFirstColon line.
Proof.
  intros Hcut Hno. unfold headerName, headerValue, valueAfterFirstColon.
  rewrite Hcut, (Cut_Split _ _ _ _ Hcut).
  destruct (Cut after ":") as [[x y]|] eqn:E.
  - assert (Contains after ":" = true) by (apply Contains_Cut; eauto). congruence.
  - now rewrite (Cut_None_Split _ _ E).
Qed.

(** With a second colon the stored value stops before it. *)
Lemma headerValue_two_colons (line before after middle tail : string) :
  Cut line ":" = Some (before, after) ->
  Cut after ":" = Some (middle, tail) ->
  headerValue line = TrimLeft middle " ".
Proof.
  intros H1 H2. unfold headerValue.
  now rewrite (Cut_Split _ _ _ _ H1), (Cut_Split _ _ _ _ H2).
Qed.

(** C4. The code against the claim, on the header line
    [Host: localhost:8080]: the claim stores the whole remainder after the
    first colon, [localhost:8080]; [readRequest] splits the line on every
    colon and keeps the second piece only, so it stores [localhost]. *)
Theorem C4_value_cut_at_second_colon :
  let line := "Host: localhost:8080" in
  valueAfterFirstColon line = "localhost:8080" /\
  headerValue line = "localhost" /\
  exists req br',
    readRequest Util.CanonicalHeaderKey
      (mkReader ["GET / HTTP/1.1"; line; ""] EOF)
    = Ret (mkReadResult (Some req) false None, br') /\
    Headers req !! "Host" = Some "localhost" /\
    Headers req !! "Host" <> Some (valueAfterFirstColon line).
Proof.
  cbn zeta. split; [reflexivity|]. split; [reflexivity|].
  eexists _, _. split; [vm_compute; reflexivity|].
  split; [vm_compute; reflexivity|]. vm_compute. discriminate.
Qed.

(** ** What the parser returns, from the lines it is given *)

Section ParserOutcome.

Variable canon : string -> string.

Lemma readHeaders_outcome (rest : list string) (fin : error)
    (hdrs : gmap string string) :
  exists rest',
    readHeaders canon rest fin hdrs =
    Ret (if headerWithoutColon rest then inl (Errorf "400: Invalid header")
         else match snd (headerBlock rest) with
              | None => inl fin
              | Some _ => inr (fold_left (addHeader canon) (fst (headerBlock rest)) hdrs)
              end,
         rest').
Proof.
  revert hdrs. induction rest as [|line rest IH]; intros hdrs.
  - exists []. reflexivity.
  - unfold headerWithoutColon. cbn [headerBlock].
    destruct (String.eqb line "") eqn:He.
    + exists rest. cbn [readHeaders]. now rewrite He.
    + destruct (headerBlock rest) as [block after] eqn:Hb.
      cbn [fst snd existsb fold_left].
      destruct (Contains line ":") eqn:Hc; cbn [negb orb].
      * apply String.eqb_neq in He. rewrite (readHeaders_step canon _ _ _ _ He Hc).
        change (<[canon (headerName line) := headerValue line]> hdrs)
          with (addHeader canon hdrs line).
        destruct (IH (addHeader canon hdrs line)) as [rest' Hr].
        exists rest'. rewrite Hr. unfold headerWithoutColon. now rewrite Hb.
      * exists rest. cbn [readHeaders]. now rewrite He, Hc.
Qed.

(** A key is in the header map exactly when a header line carries it. *)
Lemma fold_addHeader_lookup (block : list string) (hdrs : gmap string string)
    (k : string) :
  is_Some (fold_left (addHeader canon) block hdrs !! k) <->
  is_Some (hdrs !! k)
  \/ existsb (fun line => String.eqb (canon (headerName line)) k) block = true.
Proof.
  revert hdrs. induction block as [|line block IH]; intros hdrs; cbn [fold_left existsb].
  - split; [auto|]. intros [H|H]; [exact H|discriminate].
  - rewrite IH. unfold addHeader.
    destruct (String.eqb (canon (headerName line)) k) eqn:E; cbn [orb].
    + apply String.eqb_eq in E. subst k. rewrite lookup_insert_eq.
      split; [auto|]. intros _. left. eauto.
    + apply String.eqb_neq in E. now rewrite lookup_insert_ne.
Qed.

(** The last header line with a given name decides the stored value. *)
Lemma fold_addHeader_last (block : list string) (line : string)
    (hdrs : gmap string string) :
  fold_left (addHeader canon) (block ++ [line]) hdrs !! canon (headerName line)
  = Some (headerValue line).
Proof.
  rewrite fold_left_app. cbn [fold_left]. unfold addHeader at 1.
  apply lookup_insert_eq.
Qed.

End ParserOutcome.

(** What [readRequest] returns on a source whose request line does not
    have an empty target, from the lines of the source alone. *)
Lemma readRequest_outcome canon (br : Reader) :
  emptyTarget (pending br) = false ->
  exists rr br',
    readRequest canon br = Ret (rr, br') /\
    if badRequestReason canon (pending br)
    then (exists msg, rr_err rr = Some (Errorf msg)) /\ rr_req rr = None
    else if endsEarly (pending br)
    then rr_err rr = Some (final br) /\ rr_req rr = None
    else rr_err rr = None /\
         exists req,
           rr_req rr = Some req /\ Method req = "GET" /\
           HasPrefix (URL req) "/" = true /\ Proto req = "HTTP/1.1" /\
           Headers req !! "Host" = Some (Host req).
Proof.
  intros Hsafe. destruct (pending br) as [|line rest] eqn:Hp.
  - exists (mkReadResult None true (Some (final br))), br.
    split; [now apply readRequest_nothing|]. cbn. auto.
  - unfold readRequest, readLine. rewrite Hp.
    unfold parseRequestLine, failRead.
    unfold badRequestReason, endsEarly, notThreeFields, badMethod, badTarget,
      badVersion. unfold emptyTarget in Hsafe. unfold fieldsOf in *.
    destruct (Nat.eqb (List.length (SplitN line " " 3)) 3) eqn:Hlen; cbn [negb orb].
    2:{ eexists _, _. split; [reflexivity|]. cbn [rr_err rr_req]. eauto. }
    apply Nat.eqb_eq in Hlen.
    destruct (SplitN line " " 3) as [|method [|url [|proto [|x l]]]] eqn:Hs;
      try discriminate.
    cbn [nth] in *. cbn [elemAt nth_error bind andb] in *.
    destruct (String.eqb method "GET") eqn:Hm; cbn [negb orb andb] in *.
    2:{ eexists _, _. split; [reflexivity|]. cbn [rr_err rr_req]. eauto. }
    destruct url as [|c url']; [discriminate|].
    rewrite byteAt_cons_0. cbn [bind]. rewrite one_byte_eqb.
    cbn [HasPrefix]. rewrite andb_true_r.
    destruct (Ascii.eqb c "/") eqn:Hc; cbn [negb orb].
    2:{ eexists _, _. split; [reflexivity|]. cbn [rr_err rr_req]. eauto. }
    destruct (String.eqb proto "HTTP/1.1") eqn:Hpr; cbn [negb orb].
    2:{ eexists _, _. split; [reflexivity|]. cbn [rr_err rr_req]. eauto. }
    cbn [pending final].
    destruct (readHeaders_outcome canon rest (final br) ∅) as [rest' Hr].
    rewrite Hr. cbn [bind]. clear Hr.
    unfold hostMissing.
    destruct (headerWithoutColon rest); cbn [orb].
    { eexists _, _. split; [reflexivity|]. cbn [rr_err rr_req]. eauto. }
    destruct (snd (headerBlock rest)) as [after|].
    2:{ eexists _, _. split; [reflexivity|]. cbn [rr_err rr_req]. eauto. }
    pose proof (fold_addHeader_lookup canon (fst (headerBlock rest)) ∅ "Host") as Hhost.
    destruct (fold_left (addHeader canon) (fst (headerBlock rest)) ∅ !! "Host")
      as [hostVal|] eqn:Hl.
    + assert (He : existsb (fun line => String.eqb (canon (headerName line)) "Host")
                     (fst (headerBlock rest)) = true).
      { destruct (proj1 Hhost (ex_intro _ hostVal eq_refl)) as [[v Hv]|H]; [|exact H].
        rewrite lookup_empty in Hv. discriminate. }
      rewrite He. cbn [negb].
      eexists _, _. split; [reflexivity|]. cbn [rr_err rr_req].
      split; [reflexivity|]. eexists. split; [reflexivity|].
      cbn [Method URL Proto Headers Host HasPrefix].
      apply String.eqb_eq in Hm, Hpr. rewrite Hc. auto.
    + assert (He : existsb (fun line => String.eqb (canon (headerName line)) "Host")
                     (fst (headerBlock rest)) = false).
      { destruct (existsb _ _) eqn:E; [|reflexivity].
        destruct (proj2 Hhost (or_intror eq_refl)) as [v Hv]. discriminate. }
      rewrite He. cbn [negb].
      eexists _, _. split; [reflexivity|]. cbn [rr_err rr_req]. eauto.
Qed.

(** C5, as the code has it. For a source whose request line does not have
    an empty target: [readRequest] fails with a 400 error exactly when one
    of the six listed reasons holds; when none holds and the source stops
    before the empty line that ends the header block, it fails with the
    source's read error instead; otherwise it returns a request that has
    the supported method and version, a target that begins with a slash and
    a [Host] header. *)
Theorem C5_parser_outcome canon (br : Reader) :
  emptyTarget (pending br) = false ->
  exists rr br',
    readRequest canon br = Ret (rr, br') /\
    (badRequestReason canon (pending br) = true ->
     (exists msg, rr_err rr = Some (Errorf msg)) /\ rr_req rr = None) /\
    (badRequestReason canon (pending br) = false ->
     endsEarly (pending br) = true ->
     rr_err rr = Some (final br) /\ rr_req rr = None) /\
    (badRequestReason canon (pending br) = false ->
     endsEarly (pending br) = false ->
     rr_err rr = None /\
     exists req,
       rr_req rr = Some req /\ Method req = "GET" /\
       HasPrefix (URL req) "/" = true /\ Proto req = "HTTP/1.1" /\
       Headers req !! "Host" = Some (Host req)).
Proof.
  intros Hsafe.
  destruct (readRequest_outcome canon br Hsafe) as (rr & br' & Hr & H).
  exists rr, br'. split; [exact Hr|].
  destruct (badRequestReason canon (pending br)).
  - split; [intros _; exact H|]. split; discriminate.
  - split; [discriminate|].
    destruct (endsEarly (pending br)).
    + split; [intros _ _; exact H|]. intros _. discriminate.
    + split; [intros _; discriminate|]. intros _ _. exact H.
Qed.

(** A complete request, a request line without a version, and a request cut
    short by the end of the stream. *)
Lemma C5_parser_outcome_witness :
  (exists req br',
      readRequest Util.CanonicalHeaderKey
        (mkReader ["GET / HTTP/1.1"; "host: example.com"; ""] EOF)
      = Ret (mkReadResult (Some req) false None, br') /\ Host req = "example.com") /\
  (exists rr br' msg,
      readRequest Util.CanonicalHeaderKey (mkReader ["GET /"] EOF) = Ret (rr, br') /\
      rr_err rr = Some (Errorf msg)).
Proof.
  split.
  - destruct (C5_parser_outcome Util.CanonicalHeaderKey
                (mkReader ["GET / HTTP/1.1"; "host: example.com"; ""] EOF) eq_refl)
      as (rr & br' & Hr & H).
    vm_compute in Hr. injection Hr as <- <-.
    eexists _, _. split; vm_compute; reflexivity.
  - destruct (C5_parser_outcome Util.CanonicalHeaderKey (mkReader ["GET /"] EOF) eq_refl)
      as (rr & br' & Hr & H).
    destruct H as [H _]. destruct (H eq_refl) as [[msg Hm] _]. eauto.
Defined.

(** C5, as stated, fails: the source below gives a valid request line and a
    [Host] header and then ends. None of the six reasons holds, yet the
    parser fails, and with the end-of-stream error, not a 400 error. *)
Lemma C5_read_error_counterexample :
  let br := mkReader ["GET / HTTP/1.1"; "Host: example.com"] EOF in
  badRequestReason Util.CanonicalHeaderKey (pending br) = false /\
  readRequest Util.CanonicalHeaderKey br
  = Ret (mkReadResult None false (Some EOF), mkReader [] EOF).
Proof. cbn zeta. split; vm_compute; reflexivity. Qed.

(** ** The connection handler: end of stream, deadline, bad and good requests *)

(** C2, as the code has it. When [readRequest] reports end of stream,
    whether before the first line ([noReq]) or after the request line and
    some header lines had been read, the handler writes nothing and closes
    the connection: it makes no difference between the two. In particular
    it does so whenever the stream ends before the empty line of a request
    that was well formed so far. *)
Theorem C2_end_of_stream_closes_silently canon fmt mime (s : Server) (w : World)
    (br : Reader) :
  deadlineArmed w = true ->
  (forall rr br',
      readRequest canon br = Ret (rr, br') ->
      rr_err rr = Some EOF ->
      serveTurn canon fmt mime s w br = Ret (Closed "") /\
      (rr_noReq rr = true <-> pending br = [])) /\
  (final br = EOF ->
   emptyTarget (pending br) = false ->
   badRequestReason canon (pending br) = false ->
   endsEarly (pending br) = true ->
   serveTurn canon fmt mime s w br = Ret (Closed "")).
Proof.
  intros Hd. split.
  - intros rr br' Hr He. split.
    + now destruct (turn_on_error canon fmt mime s w br br' rr EOF Hd Hr He).
    + apply readRequest_cases in Hr.
      destruct Hr as [Hp|line rest e br2 Hp Hle Hfin H
                     |line rest url hdrs hostVal rest' Hp Hs Hu Hh Hlt Hhost];
        cbn [rr_noReq]; rewrite Hp; split; congruence.
  - intros Hf Hsafe Hgood Hearly.
    destruct (readRequest_outcome canon br Hsafe) as (rr & br' & Hr & H).
    rewrite Hgood, Hearly in H. destruct H as [He _]. rewrite Hf in He.
    now destruct (turn_on_error canon fmt mime s w br br' rr EOF Hd Hr He).
Qed.

(** End of stream after the request line and one header line. *)
Lemma C2_end_of_stream_witness :
  Example.turn
    (NewReader (mkConn ("GET / HTTP/1.1" ++ CRLF ++ "Host: example.com" ++ CRLF) EOF))
  = Ret (Closed "").
Proof.
  apply (C2_end_of_stream_closes_silently Util.CanonicalHeaderKey Util.FormatTime
           Util.MIMETypeByExtension Example.server Example.world _ eq_refl);
    reflexivity.
Defined.

(** C2, as stated, fails: the connection below delivers a request line and
    a header line and then ends; the parser reports end of stream with
    [noReq = false], and the handler returns having written nothing, not the
    400 response. *)
Lemma C2_partial_request_eof_counterexample :
  let conn := mkConn ("GET / HTTP/1.1" ++ CRLF ++ "Host: example.com" ++ CRLF) EOF in
  (exists br',
      readRequest Util.CanonicalHeaderKey (NewReader conn)
      = Ret (mkReadResult None false (Some EOF), br')) /\
  Example.handle conn = Returned "" /\
  Example.handle conn <> Returned Example.bad.
Proof.
  cbn zeta. split; [|split].
  - eexists. vm_compute. reflexivity.
  - vm_compute. reflexivity.
  - vm_compute. discriminate.
Qed.

(** ** Strings *)

Lemma append_nil_l (s : string) : "" ++ s = s.
Proof. reflexivity. Qed.

Lemma append_cons (a : ascii) (s t : string) : String a s ++ t = String a (s ++ t).
Proof. reflexivity. Qed.

Lemma append_assoc (a b c : string) : (a ++ b) ++ c = a ++ b ++ c.
Proof.
  induction a as [|x a IH]; [reflexivity|].
  rewrite !append_cons. now rewrite IH.
Qed.

Lemma append_nil_r (a : string) : a ++ "" = a.
Proof.
  induction a as [|x a IH]; [reflexivity|].
  rewrite append_cons. now rewrite IH.
Qed.

Lemma Contains_app (a b : string) (c : ascii) :
  Contains (a ++ b) c = Contains a c || Contains b c.
Proof.
  induction a as [|x a IH]; [reflexivity|].
  rewrite append_cons. cbn [Contains].
  now destruct (Ascii.eqb x c).
Qed.

Lemma Cut_app_first (a b : string) (c : ascii) :
  Contains a c = false -> Cut (a ++ String c b) c = Some (a, b).
Proof.
  induction a as [|x a IH]; rewrite ?append_cons, ?append_nil_l; cbn [Contains Cut].
  - now rewrite Ascii.eqb_refl.
  - destruct (Ascii.eqb x c); [discriminate|]. intros H. now rewrite (IH H).
Qed.

Lemma Split_app_first (a b : string) (c : ascii) :
  Contains a c = false -> Split (a ++ String c b) c = a :: Split b c.
Proof. intros H. apply Cut_Split. now apply Cut_app_first. Qed.

Lemma trimCR_app (l : string) : trimCR (l ++ String CR "") = l.
Proof.
  induction l as [|a l IH]; [reflexivity|].
  rewrite append_cons. cbn [trimCR]. rewrite IH.
  destruct l; [|reflexivity]. discriminate || reflexivity.
Qed.

Lemma TrimLeft_id (v : string) (c : ascii) :
  HasPrefix v (String c "") = false -> TrimLeft v c = v.
Proof.
  destruct v as [|a v]; [reflexivity|]. cbn [HasPrefix TrimLeft].
  rewrite andb_true_r. now intros ->.
Qed.

Lemma wireLines_line (l rest : string) :
  Contains l LF = false ->
  wireLines (l ++ CRLF ++ rest) = l :: wireLines rest.
Proof.
  intros H. unfold wireLines, CRLF.
  change (l ++ String CR (String LF "") ++ rest)
    with (l ++ String CR "" ++ String LF rest).
  rewrite <- append_assoc, Split_app_first.
  - cbn [map]. now rewrite trimCR_app.
  - rewrite Contains_app, H. reflexivity.
Qed.

Lemma wireLines_lines (ls : list string) (rest : string) :
  Forall (fun l => Contains l LF = false) ls ->
  wireLines (writeAll (map (fun l => l ++ CRLF) ls) ++ rest)
  = (ls ++ wireLines rest)%list.
Proof.
  induction 1 as [|l ls Hl _ IH]; [reflexivity|].
  cbn [map writeAll]. rewrite !append_assoc.
  rewrite wireLines_line by exact Hl. now rewrite IH.
Qed.

(** ** Decimal numbers *)

Lemma Contains_string_of_uint (d : Decimal.uint) (c : ascii) :
  decimalChar c = false -> Contains (NilEmpty.string_of_uint d) c = false.
Proof.
  intros H. unfold decimalChar in H. cbn [existsb] in H.
  repeat (apply orb_false_elim in H as [? H]).
  induction d; cbn [NilEmpty.string_of_uint Contains]; try reflexivity;
    match goal with
    | Hd : Ascii.eqb ?x c = false |- context [Ascii.eqb ?x c] => now rewrite Hd
    end.
Qed.

Lemma Contains_Sprint (z : Z) (c : ascii) :
  decimalChar c = false -> Contains (Sprint z) c = false.
Proof.
  intros H. pose proof (Contains_string_of_uint) as Hu.
  assert (Hz : forall d, Contains (NilZero.string_of_uint d) c = false).
  { intros d. destruct d; try (apply (Hu _ c H)).
    unfold decimalChar in H. cbn [existsb] in H.
    apply orb_false_elim in H as [H _].
    change (Contains (String "0" "") c = false). cbn [Contains]. now rewrite H. }
  unfold Sprint. destruct (Z.to_int z) as [d|d]; cbn [NilZero.string_of_int].
  - apply Hz.
  - cbn [Contains]. rewrite Hz.
    unfold decimalChar in H. cbn [existsb] in H.
    repeat (apply orb_false_elim in H as [? H]).
    match goal with
    | Hd : Ascii.eqb "-" c = false |- _ => now rewrite Hd
    end.
Qed.

Lemma Sprint_nonempty (z : Z) : exists a s, Sprint z = String a s.
Proof.
  unfold Sprint. destruct (Z.to_int z) as [d|d]; cbn [NilZero.string_of_int].
  - destruct d; cbn; eauto.
  - eauto.
Qed.

Lemma safeValue_Sprint (z : Z) : safeValue (Sprint z) = true.
Proof.
  unfold safeValue. rewrite Contains_Sprint by reflexivity. cbn [negb andb].
  destruct (Sprint_nonempty z) as (a & s & E).
  pose proof (Contains_Sprint z " " eq_refl) as H. rewrite E in *.
  cbn [Contains HasPrefix] in *. destruct (Ascii.eqb a " "); [discriminate|reflexivity].
Qed.

Lemma parseInt_string_of_int (d : Decimal.int) :
  parseInt (NilZero.string_of_int d) = Some (Z.of_int d).
Proof.
  unfold parseInt.
  destruct d as [u|u]; destruct u; try reflexivity;
    now rewrite NilZero.isi by discriminate.
Qed.

Lemma parseInt_Sprint (z : Z) : parseInt (Sprint z) = Some z.
Proof.
  unfold Sprint. rewrite parseInt_string_of_int. now rewrite DecimalZ.of_to.
Qed.

(** ** The writer *)

Lemma sortedKeys_elem (m : gmap string string) (k : string) :
  k ∈ sortedKeys m <-> is_Some (m !! k).
Proof.
  unfold sortedKeys. rewrite merge_sort_Permutation, list_elem_of_fmap.
  split.
  - intros ([k' v] & -> & H). apply elem_of_map_to_list in H. eauto.
  - intros [v H]. exists (k, v). split; [reflexivity|]. now apply elem_of_map_to_list.
Qed.

Lemma sortedKeys_sorted (m : gmap string string) :
  Sorted String.le (sortedKeys m).
Proof. apply Sorted_merge_sort; apply _. Qed.

Lemma sortedKeys_NoDup (m : gmap string string) : NoDup (sortedKeys m).
Proof.
  unfold sortedKeys. rewrite merge_sort_Permutation. apply NoDup_fst_map_to_list.
Qed.

(** Go ranges over a map in no fixed order: sorting makes the order of the
    keys, in whichever order the range produced them, the same. *)
Lemma sortedKeys_any_order (m : gmap string string) (ks : list string) :
  ks ≡ₚ (map_to_list m).*1 -> merge_sort String.le ks = sortedKeys m.
Proof.
  intros H. apply (Sorted_unique String.le).
  - apply Sorted_merge_sort; apply _.
  - apply sortedKeys_sorted.
  - unfold sortedKeys. now rewrite !merge_sort_Permutation.
Qed.

Lemma headerLine_text (m : gmap string string) (k : string) :
  headerLine m k = headerText m k ++ CRLF.
Proof. unfold headerLine, headerText. now rewrite !append_assoc. Qed.

Lemma writeAll_headerLines (m : gmap string string) (ks : list string) :
  writeAll (map (headerLine m) ks)
  = writeAll (map (fun l => l ++ CRLF) (map (headerText m) ks)).
Proof.
  induction ks as [|k ks IH]; [reflexivity|].
  cbn [map writeAll]. now rewrite IH, headerLine_text.
Qed.

Lemma wireSafe_header (res : Response) (k v : string) :
  wireSafe res = true -> ResHeaders res !! k = Some v ->
  Contains k ":" = false /\ Contains k LF = false /\
  Contains v LF = false /\ HasPrefix v " " = false.
Proof.
  unfold wireSafe. intros H Hk.
  apply andb_true_iff in H as [_ H].
  rewrite forallb_forall in H.
  specialize (H (k, v)). unfold safeHeader, safeValue in H. cbn [fst snd] in H.
  assert (Hin : In (k, v) (map_to_list (ResHeaders res))).
  { apply list_elem_of_In. now apply elem_of_map_to_list. }
  apply H in Hin. clear H.
  apply andb_true_iff in Hin as [Hin Hv].
  apply andb_true_iff in Hin as [Hk1 Hk2].
  apply andb_true_iff in Hv as [Hv1 Hv2].
  apply negb_true_iff in Hk1, Hk2, Hv1, Hv2. auto.
Qed.

Lemma Cut_headerText (m : gmap string string) (k : string) :
  Contains k ":" = false ->
  Cut (headerText m k) ":" = Some (k, String " " (mapGet m k)).
Proof.
  intros H. unfold headerText.
  change (k ++ ": " ++ mapGet m k) with (k ++ String ":" (String " " (mapGet m k))).
  now apply Cut_app_first.
Qed.

Lemma parseHeaderLines_written (m : gmap string string) (ks : list string)
    (acc : gmap string string) :
  Forall (fun k => Contains k ":" = false /\ HasPrefix (mapGet m k) " " = false) ks ->
  parseHeaderLines (map (headerText m) ks) acc
  = Some (fold_left (fun a k => <[k := mapGet m k]> a) ks acc).
Proof.
  intros H. revert acc. induction H as [|k ks [Hk Hv] _ IH]; intros acc;
    [reflexivity|].
  cbn [map parseHeaderLines fold_left]. rewrite (Cut_headerText m k Hk).
  cbn [TrimLeft]. rewrite Ascii.eqb_refl. rewrite (TrimLeft_id _ _ Hv). apply IH.
Qed.

Lemma fold_insert_lookup (f : string -> string) (ks : list string)
    (acc : gmap string string) (k : string) :
  fold_left (fun a k => <[k := f k]> a) ks acc !! k
  = if decide (k ∈ ks) then Some (f k) else acc !! k.
Proof.
  revert acc. induction ks as [|k' ks IH]; intros acc; cbn [fold_left].
  - destruct (decide (k ∈ [])) as [H|_]; [|reflexivity]. now apply elem_of_nil in H.
  - rewrite IH. destruct (decide (k ∈ ks)) as [Hin|Hnin].
    + rewrite decide_True; [reflexivity|]. now right.
    + destruct (decide (k = k')) as [->|Hne].
      * rewrite lookup_insert_eq. rewrite decide_True; [reflexivity|]. now left.
      * rewrite lookup_insert_ne by congruence.
        rewrite decide_False; [reflexivity|].
        intros [?|?]%elem_of_cons; contradiction.
Qed.

Lemma fold_insert_sortedKeys (m : gmap string string) :
  fold_left (fun a k => <[k := mapGet m k]> a) (sortedKeys m) ∅ = m.
Proof.
  apply map_eq. intros k. rewrite fold_insert_lookup.
  destruct (decide (k ∈ sortedKeys m)) as [Hin|Hnin].
  - apply sortedKeys_elem in Hin as [v Hv]. unfold mapGet. now rewrite Hv.
  - rewrite lookup_empty. destruct (m !! k) as [v|] eqn:E; [|reflexivity].
    exfalso. apply Hnin. apply sortedKeys_elem. eauto.
Qed.

Lemma headerBlock_written (ls tail : list string) :
  Forall (fun l => l <> "") ls ->
  headerBlock (ls ++ "" :: tail) = (ls, Some tail).
Proof.
  induction 1 as [|l ls Hl _ IH]; [reflexivity|].
  cbn [app headerBlock]. apply String.eqb_neq in Hl. now rewrite Hl, IH.
Qed.

Lemma headerText_nonempty (m : gmap string string) (k : string) :
  headerText m k <> "".
Proof. unfold headerText. now destruct k. Qed.

Lemma Contains_statusText (code : Z) (c : ascii) :
  Contains "OK" c = false -> Contains "Bad Request" c = false ->
  Contains "Not Found" c = false -> Contains (statusText code) c = false.
Proof.
  intros H1 H2 H3. unfold statusText.
  destruct (code =? statusOK); [exact H1|].
  destruct (code =? statusBadRequest); [exact H2|].
  destruct (code =? statusNotFound); [exact H3|reflexivity].
Qed.

Lemma parseStatusLine_written (proto reason : string) (code : Z) :
  Contains proto " " = false ->
  parseStatusLine (proto ++ " " ++ Sprint code ++ " " ++ reason)
  = Some (proto, code, reason).
Proof.
  intros H. unfold parseStatusLine.
  change (proto ++ " " ++ Sprint code ++ " " ++ reason)
    with (proto ++ String " " (Sprint code ++ String " " reason)).
  cbn [SplitN]. rewrite (Cut_app_first _ _ _ H).
  rewrite Cut_app_first by (now apply Contains_Sprint).
  now rewrite parseInt_Sprint.
Qed.

Lemma mapGet_Some (m : gmap string string) (k v : string) :
  m !! k = Some v -> mapGet m k = v.
Proof. unfold mapGet. now intros ->. Qed.

Lemma Write_wire_form (w : World) (res : Response) :
  Write w res
  = (ResProto res ++ " " ++ Sprint (StatusCode res) ++ " "
       ++ statusText (StatusCode res)) ++ CRLF
    ++ writeAll (map (fun l => l ++ CRLF)
                     (map (headerText (ResHeaders res)) (sortedKeys (ResHeaders res))))
    ++ ("" ++ CRLF ++ writeBody w res).
Proof.
  unfold Write, writeStatusLine, writeHeaders.
  rewrite writeAll_headerLines. rewrite append_nil_l. now rewrite !append_assoc.
Qed.

Lemma parseResponse_Write (w : World) (res : Response) :
  wireSafe res = true ->
  parseResponse (Write w res) = Some (StatusCode res, ResHeaders res).
Proof.
  intros Hsafe.
  assert (Hproto : Contains (ResProto res) " " = false /\
                   Contains (ResProto res) LF = false).
  { unfold wireSafe in Hsafe. apply andb_true_iff in Hsafe as [Hp _].
    apply andb_true_iff in Hp as [H1 H2]. now apply negb_true_iff in H1, H2. }
  destruct Hproto as [Hsp Hlf].
  assert (Hkeys : Forall (fun k => exists v, ResHeaders res !! k = Some v)
                         (sortedKeys (ResHeaders res))).
  { apply Forall_forall. intros k Hk. now apply sortedKeys_elem in Hk. }
  unfold parseResponse. rewrite Write_wire_form.
  rewrite wireLines_line.
  2:{ rewrite !Contains_app, Hlf, Contains_Sprint by reflexivity.
      now rewrite Contains_statusText. }
  rewrite wireLines_lines.
  2:{ apply Forall_forall. intros l Hl. apply list_elem_of_In in Hl.
      apply in_map_iff in Hl as (k & <- & Hk). apply list_elem_of_In in Hk.
      rewrite Forall_forall in Hkeys. destruct (Hkeys k Hk) as [v Hv].
      destruct (wireSafe_header res k v Hsafe Hv) as (_ & Hk2 & Hv1 & _).
      unfold headerText. rewrite (mapGet_Some _ _ _ Hv).
      now rewrite !Contains_app, Hk2, Hv1. }
  rewrite wireLines_line by reflexivity.
  rewrite (parseStatusLine_written _ _ _ Hsp).
  rewrite headerBlock_written.
  2:{ apply Forall_forall. intros l Hl. apply list_elem_of_In in Hl.
      apply in_map_iff in Hl as (k & <- & Hk). apply headerText_nonempty. }
  rewrite parseHeaderLines_written.
  2:{ apply Forall_forall. intros k Hk.
      rewrite Forall_forall in Hkeys. destruct (Hkeys k Hk) as [v Hv].
      destruct (wireSafe_header res k v Hsafe Hv) as (Hk1 & _ & _ & Hv2).
      rewrite (mapGet_Some _ _ _ Hv). auto. }
  now rewrite fold_insert_sortedKeys.
Qed.

(** ** Every response the server builds survives the wire *)

Lemma wireSafe_intro (res : Response) :
  ResProto res = responseProto ->
  map_Forall (fun k v => safeHeader (k, v) = true) (ResHeaders res) ->
  wireSafe res = true.
Proof.
  intros Hp Hm. unfold wireSafe. rewrite Hp. cbn [negb andb].
  change (Contains responseProto " ") with false.
  change (Contains responseProto LF) with false. cbn [negb andb].
  apply forallb_forall. intros [k v] Hin.
  apply list_elem_of_In, elem_of_map_to_list in Hin. exact (Hm k v Hin).
Qed.

Section BuiltResponses.

Variable FormatTime : Time -> string.
Variable MIMETypeByExtension : string -> string.
Variable w : World.

Hypothesis FormatTime_safe : forall t, safeValue (FormatTime t) = true.
Hypothesis MIMEType_safe : forall ext, safeValue (MIMETypeByExtension ext) = true.

Local Abbreviation safe := (fun (k v : string) => safeHeader (k, v) = true).

Lemma safe_name (k v : string) :
  Contains k ":" = false -> Contains k LF = false -> safeValue v = true ->
  safeHeader (k, v) = true.
Proof. unfold safeHeader. cbn [fst snd]. now intros -> -> ->. Qed.

Lemma init_safe (res : Response) (req : option Request) :
  ResProto (init FormatTime w res req) = responseProto /\
  map_Forall safe (ResHeaders (init FormatTime w res req)).
Proof.
  split; [reflexivity|]. unfold init. cbn [ResHeaders].
  assert (Hd : map_Forall safe (<["Date" := FormatTime (now w)]> (∅ : gmap string string))).
  { apply map_Forall_insert_2; [|apply map_Forall_empty].
    now apply safe_name. }
  destruct req as [r|]; [|exact Hd]. destruct (Close r); [|exact Hd].
  apply map_Forall_insert_2; [|exact Hd]. now apply safe_name.
Qed.

Lemma handleBadRequest_safe (res : Response) (req : option Request) :
  wireSafe (handleBadRequest FormatTime w res req) = true.
Proof.
  apply wireSafe_intro; [reflexivity|].
  unfold handleBadRequest. cbn [ResHeaders].
  apply map_Forall_insert_2; [now apply safe_name|apply init_safe].
Qed.

Lemma handleNotFound_safe (res : Response) (req : option Request) :
  wireSafe (handleNotFound FormatTime w res req) = true.
Proof.
  apply wireSafe_intro; [reflexivity|].
  unfold handleNotFound. cbn [ResHeaders]. apply init_safe.
Qed.

Lemma handleOK_safe (res res' : Response) (req : option Request) :
  handleOK FormatTime MIMETypeByExtension w res req = Ret res' ->
  wireSafe res' = true.
Proof.
  unfold handleOK. destruct (stat w _); try discriminate.
  intros H. injection H as <-.
  apply wireSafe_intro; [reflexivity|]. cbn [ResHeaders].
  repeat (apply map_Forall_insert_2;
          [apply safe_name; auto using safeValue_Sprint|]).
  apply (init_safe res req).
Qed.

Lemma handleGoodRequest_safe (s : Server) (req : Request) (res : Response) :
  handleGoodRequest FormatTime MIMETypeByExtension w s req = Ret res ->
  wireSafe res = true.
Proof.
  unfold handleGoodRequest.
  destruct (indexTarget (URL req)) as [url'|]; cbn [bind]; [|discriminate].
  unfold resolve.
  destruct (Filepath.Rel _ _) as [rel|].
  2:{ intros H. injection H as <-. apply handleNotFound_safe. }
  destruct (HasPrefix rel "..").
  { intros H. injection H as <-. apply handleNotFound_safe. }
  destruct (stat w _) as [fi| |msg]; try discriminate.
  - destruct (IsDir fi).
    + intros H. injection H as <-. apply handleNotFound_safe.
    + apply handleOK_safe.
  - intros H. injection H as <-. apply handleNotFound_safe.
Qed.

(** What the handler writes for a request it could not parse, and what it
    writes for a request it served, parse back to the response's status
    code and header set. *)
Lemma written_responses_round_trip (s : Server) :
  (forall req,
      let res := handleBadRequest FormatTime w zeroResponse req in
      parseResponse (Write w res) = Some (StatusCode res, ResHeaders res)) /\
  (forall req res,
      handleGoodRequest FormatTime MIMETypeByExtension w s req = Ret res ->
      parseResponse (Write w res) = Some (StatusCode res, ResHeaders res)).
Proof.
  split.
  - intros req res. apply parseResponse_Write, handleBadRequest_safe.
  - intros req res H. apply parseResponse_Write. eapply handleGoodRequest_safe; eauto.
Qed.

End BuiltResponses.

(** C8. [Write] emits the status line [<version> <code> <reason>] and CRLF,
    then one line [<Key>: <Value>] and CRLF per header, the keys in
    increasing byte-wise order and each header once, then an empty line,
    then the body. Reading these bytes back gives the status code and the
    header set of the response: for every response whose version and
    headers are free of the separators of the wire format, and so for every
    response the server builds, as long as the timestamps and MIME types it
    is given are free of them. *)
Theorem C8_write_format_and_round_trip (w : World) (res : Response) :
  let hdrs := ResHeaders res in
  Write w res
  = (ResProto res ++ " " ++ Sprint (StatusCode res) ++ " "
       ++ statusText (StatusCode res) ++ CRLF)
    ++ (writeAll (map (fun k => k ++ ": " ++ mapGet hdrs k ++ CRLF) (sortedKeys hdrs))
          ++ CRLF)
    ++ writeBody w res /\
  Sorted String.le (sortedKeys hdrs) /\
  NoDup (sortedKeys hdrs) /\
  (forall k, k ∈ sortedKeys hdrs <-> is_Some (hdrs !! k)) /\
  (wireSafe res = true ->
   parseResponse (Write w res) = Some (StatusCode res, hdrs)) /\
  (forall fmt mime,
      (forall t, safeValue (fmt t) = true) ->
      (forall ext, safeValue (mime ext) = true) ->
      (forall req, res = handleBadRequest fmt w zeroResponse req ->
                   parseResponse (Write w res) = Some (StatusCode res, hdrs)) /\
      (forall s req, handleGoodRequest fmt mime w s req = Ret res ->
                     parseResponse (Write w res) = Some (StatusCode res, hdrs))).
Proof.
  cbn zeta. split; [reflexivity|].
  split; [apply sortedKeys_sorted|].
  split; [apply sortedKeys_NoDup|].
  split; [apply sortedKeys_elem|].
  split; [apply parseResponse_Write|].
  intros fmt mime Hf Hm. split.
  - intros req ->. apply parseResponse_Write. now apply handleBadRequest_safe.
  - intros s req Hres.
    now apply (proj2 (written_responses_round_trip fmt mime w Hf Hm s) req res).
Qed.

(** The 400 response. *)
Lemma C8_round_trip_witness :
  parseResponse Example.bad
  = Some (400, <["Connection" := "close"]> (<["Date" := "2000"]> ∅)).
Proof.
  exact (proj1 (proj2 (proj2 (proj2 (proj2
           (C8_write_format_and_round_trip Example.world
              (handleBadRequest Util.FormatTime Example.world zeroResponse None))))))
           eq_refl).
Defined.

(** ** Further properties of the resolver, the builders and the handler *)

Lemma Clean_rooted (path : string) :
  HasPrefix path "/" = true -> exists body, Filepath.Clean path = String "/" body.
Proof.
  destruct path as [|c rest]; [discriminate|]. cbn [HasPrefix].
  rewrite andb_true_r. intros Hc. unfold Filepath.Clean.
  unfold Filepath.Separator. rewrite Hc. eauto.
Qed.

Lemma Rel_from_empty_base (path : string) :
  HasPrefix path "/" = true -> Filepath.Rel "" path = None.
Proof.
  intros H. destruct (Clean_rooted path H) as [body Hb].
  unfold Filepath.Rel. rewrite Hb. reflexivity.
Qed.

Lemma indexTarget_rooted (url url' : string) :
  HasPrefix url "/" = true -> indexTarget url = Ret url' ->
  HasPrefix url' "/" = true.
Proof.
  intros H. unfold indexTarget.
  destruct (byteAt url _) as [c|]; cbn [bind]; [|discriminate].
  intros E. injection E as <-.
  destruct (Ascii.eqb c "/"); [|exact H].
  destruct url; [discriminate|]. exact H.
Qed.

(** A request for a host that is not a virtual host of the server gets the
    404 response: with the empty document root the joined path is the
    cleaned target, which is rooted, and [filepath.Rel] cannot relate a
    rooted path to the empty one. *)
Theorem unknown_host_is_not_found FormatTime MIMETypeByExtension
    (w : World) (s : Server) (req : Request) :
  VirtualHosts s !! Host req = None ->
  HasPrefix (URL req) "/" = true ->
  exists res,
    handleGoodRequest FormatTime MIMETypeByExtension w s req = Ret res /\
    StatusCode res = statusNotFound /\ FilePath res = "" /\
    ResHeaders res !! "Connection" = (if Close req then Some "close" else None).
Proof.
  intros Hhost Hvalid.
  destruct (indexTarget_total _ Hvalid) as [url' Hu].
  pose proof (indexTarget_rooted _ _ Hvalid Hu) as Hr.
  exists (handleNotFound FormatTime w zeroResponse (Some (withURL req url'))).
  assert (Hg : handleGoodRequest FormatTime MIMETypeByExtension w s req
               = Ret (handleNotFound FormatTime w zeroResponse (Some (withURL req url')))).
  { unfold handleGoodRequest. rewrite Hu. cbn [bind].
    apply resolve_outside. cbn [withURL Host URL].
    unfold mapGet. rewrite Hhost. cbn [default].
    assert (Hj : Filepath.JoinPath [""; url'] = Filepath.Clean url').
    { destruct url' as [|c r]; [discriminate|]. reflexivity. }
    rewrite Hj. destruct (Clean_rooted _ Hr) as [body Hb]. rewrite Hb.
    now rewrite Rel_from_empty_base. }
  split; [exact Hg|]. split; [reflexivity|]. split; [reflexivity|].
  now apply (handleGoodRequest_connection FormatTime MIMETypeByExtension w s req).
Qed.

Lemma unknown_host_witness :
  exists res,
    handleGoodRequest Util.FormatTime Util.MIMETypeByExtension Example.world
      Example.server
      (mkRequest "GET" "/index.html" "HTTP/1.1" {[ "Host" := "other.org" ]}
                 "other.org" false)
    = Ret res /\ StatusCode res = 404.
Proof.
  destruct (unknown_host_is_not_found Util.FormatTime Util.MIMETypeByExtension
              Example.world Example.server
              (mkRequest "GET" "/index.html" "HTTP/1.1" {[ "Host" := "other.org" ]}
                         "other.org" false) eq_refl eq_refl)
    as (res & Hres & Hcode & _).
  exists res. auto.
Defined.

(** The 200 response: its status, its three headers beside the baseline
    ones, and its body. *)
Theorem handleOK_response FormatTime MIMETypeByExtension (w : World)
    (path : string) (req : option Request) (fi : FileInfo) :
  stat w path = StatOk fi ->
  exists res,
    handleOK FormatTime MIMETypeByExtension w (withFilePath zeroResponse path) req
    = Ret res /\
    StatusCode res = 200 /\ StatusText res = "OK" /\ FilePath res = path /\
    ResHeaders res !! "Content-Length" = Some (Sprint (Size fi)) /\
    ResHeaders res !! "Content-Type" = Some (MIMETypeByExtension (Filepath.Ext path)) /\
    ResHeaders res !! "Last-Modified" = Some (FormatTime (ModTime fi)) /\
    ResHeaders res !! "Date" = Some (FormatTime (now w)) /\
    ResHeaders res !! "Connection" = closeHeader req /\
    (path <> "" -> writeBody w res = default "" (readFile w path)).
Proof.
  intros Hst. unfold handleOK. cbn [FilePath init withFilePath]. rewrite Hst.
  eexists. split; [reflexivity|]. cbn [StatusCode StatusText FilePath ResHeaders].
  do 3 (split; [reflexivity|]).
  split; [now rewrite lookup_insert_eq|].
  split; [now rewrite lookup_insert_ne, lookup_insert_eq by discriminate|].
  split; [now rewrite !lookup_insert_ne, lookup_insert_eq by discriminate|].
  rewrite !lookup_insert_ne by discriminate.
  split; [|split].
  - unfold init. cbn [ResHeaders].
    destruct req as [r|]; [destruct (Close r)|]; now simplify_map_eq.
  - apply init_connection.
  - intros Hne. unfold writeBody. cbn [FilePath].
    apply String.eqb_neq in Hne. rewrite Hne. now destruct (readFile w path).
Qed.

Lemma handleOK_response_witness :
  exists res,
    handleOK Util.FormatTime Util.MIMETypeByExtension Example.world
      (withFilePath zeroResponse "/srv/www/index.html") None = Ret res /\
    ResHeaders res !! "Content-Length" = Some "5" /\
    ResHeaders res !! "Content-Type" = Some "text/html; charset=utf-8".
Proof.
  destruct (handleOK_response Util.FormatTime Util.MIMETypeByExtension Example.world
              "/srv/www/index.html" None (mkFileInfo false 5 1000) eq_refl)
    as (res & Hres & _ & _ & _ & Hlen & Htype & _).
  exists res. auto.
Defined.

(** The 404 response closes the connection only when the request asked for
    it; it has no body. *)
Theorem handleNotFound_response FormatTime (w : World) (req : option Request) :
  let res := handleNotFound FormatTime w zeroResponse req in
  StatusCode res = 404 /\ StatusText res = "Not Found" /\
  FilePath res = "" /\ writeBody w res = "" /\
  ResHeaders res !! "Date" = Some (FormatTime (now w)) /\
  ResHeaders res !! "Connection" = closeHeader req.
Proof.
  cbn zeta. repeat (split; [reflexivity|]). split.
  - unfold handleNotFound, init. cbn [ResHeaders].
    destruct req as [r|]; [destruct (Close r)|]; now simplify_map_eq.
  - apply handleNotFound_connection.
Qed.

(** The handler's loop ends on every connection: it returns, or the
    goroutine panics. *)
Theorem handler_loop_ends canon fmt mime (s : Server) (ws : nat -> World)
    (conn : Conn) :
  (exists written, handleClientConnections canon fmt mime s ws conn = Returned written)
  \/ (exists written msg,
        handleClientConnections canon fmt mime s ws conn = Crashed written msg).
Proof.
  pose proof (handleClientConnections_returns canon fmt mime s ws conn) as H.
  destruct (handleClientConnections canon fmt mime s ws conn); eauto. congruence.
Qed.

(** The scenarios of the specification on the example host: the index page
    is served with its size and its bytes; a missing page gets the 404; a
    request without [Host] gets the 400 and the rest of the input is not
    read; a silent peer gets nothing. *)
Theorem example_scenarios :
  Example.handle
    (mkConn ("GET / HTTP/1.1" ++ CRLF ++ "Host: example.com" ++ CRLF ++ CRLF) EOF)
  = Returned ("HTTP/1.1 200 OK" ++ CRLF ++ "Content-Length: 5" ++ CRLF
              ++ "Content-Type: text/html; charset=utf-8" ++ CRLF
              ++ "Date: 2000" ++ CRLF ++ "Last-Modified: 1000" ++ CRLF ++ CRLF
              ++ "hello") /\
  Example.handle
    (mkConn ("GET /missing.html HTTP/1.1" ++ CRLF ++ "Host: example.com" ++ CRLF
             ++ CRLF) EOF)
  = Returned ("HTTP/1.1 404 Not Found" ++ CRLF ++ "Date: 2000" ++ CRLF ++ CRLF) /\
  Example.handle
    (mkConn ("GET / HTTP/1.1" ++ CRLF ++ CRLF
             ++ "GET / HTTP/1.1" ++ CRLF ++ "Host: example.com" ++ CRLF ++ CRLF) EOF)
  = Returned Example.bad /\
  Example.handle (mkConn "" ErrTimeout) = Returned "".
Proof. repeat split; vm_compute; reflexivity. Qed.

Lemma readHeaders_block canon (block tail : list string) (fin : error)
    (hdrs : gmap string string) :
  Forall (fun l => l <> "" /\ Contains l ":" = true) block ->
  readHeaders canon (block ++ tail) fin hdrs
  = readHeaders canon tail fin (fold_left (addHeader canon) block hdrs).
Proof.
  intros H. revert hdrs. induction H as [|l block [Hne Hc] _ IH]; intros hdrs;
    [reflexivity|].
  cbn [app fold_left]. rewrite (readHeaders_step canon _ _ _ _ Hne Hc). apply IH.
Qed.

(** A header line with one colon is stored under its canonical name with
    the whole text after the colon, less the leading spaces, as its value;
    the last line with a name decides the value. *)
Theorem header_line_stored canon (block : list string) (line : string)
    (rest : list string) (fin : error) (before after : string) :
  Forall (fun l => l <> "" /\ Contains l ":" = true) block ->
  Cut line ":" = Some (before, after) ->
  Contains after ":" = false ->
  exists hdrs,
    readHeaders canon (block ++ line :: "" :: rest) fin ∅ = Ret (inr hdrs, rest) /\
    hdrs !! canon before = Some (TrimLeft after " ").
Proof.
  intros Hblock Hcut Hone.
  destruct (headerValue_one_colon line before after Hcut Hone) as [Hn Hv].
  assert (Hc : Contains line ":" = true) by (apply Contains_Cut; eauto).
  assert (Hne : line <> "") by (intros ->; discriminate).
  rewrite (readHeaders_block canon block _ fin ∅ Hblock).
  rewrite (readHeaders_step canon _ _ _ _ Hne Hc).
  cbn [readHeaders String.eqb]. eexists. split; [reflexivity|].
  rewrite Hn, Hv. unfold valueAfterFirstColon. rewrite Hcut.
  apply lookup_insert_eq.
Qed.

Lemma header_line_stored_witness :
  exists hdrs,
    readHeaders Util.CanonicalHeaderKey
      (["host: a"] ++ "HOST:   example.com x " :: "" :: ["next"]) EOF ∅
    = Ret (inr hdrs, ["next"]) /\
    hdrs !! "Host" = Some "example.com x ".
Proof.
  apply (header_line_stored Util.CanonicalHeaderKey ["host: a"]
           "HOST:   example.com x " ["next"] EOF "HOST" "   example.com x ").
  - repeat constructor; discriminate.
  - reflexivity.
  - reflexivity.
Defined.

Lemma sortedKeys_any_order_witness :
  merge_sort String.le ["Date"; "Connection"]
  = sortedKeys (<["Connection" := "close"]> (<["Date" := "2000"]> ∅)).
Proof.
  apply sortedKeys_any_order. vm_compute.
  first [reflexivity | apply perm_swap].
Defined.

(** The derived fields of a parsed request: the host is the value of the
    [Host] header, and the close flag is set exactly when the [Connection]
    header has the value [close], byte for byte. *)
Theorem parsed_request_derived_fields canon (br br' : Reader) (rr : ReadResult)
    (req : Request) :
  readRequest canon br = Ret (rr, br') ->
  rr_req rr = Some req ->
  rr_err rr = None /\ rr_noReq rr = false /\
  Headers req !! "Host" = Some (Host req) /\
  (Close req = true <-> Headers req !! "Connection" = Some "close") /\
  (List.length (pending br') < List.length (pending br))%nat.
Proof.
  intros Hr Hq. apply readRequest_cases in Hr.
  destruct Hr as [Hp|line rest e br2 Hp Hle Hfin H
                 |line rest url hdrs hostVal rest' Hp Hs Hu Hh Hlt Hhost];
    cbn [rr_req] in Hq; try discriminate.
  injection Hq as <-. cbn [rr_err rr_noReq Headers Host Close pending].
  repeat (split; [reflexivity || assumption|]).
  split.
  - destruct (hdrs !! "Connection") as [v|]; [|split; discriminate].
    rewrite String.eqb_eq. split; congruence.
  - rewrite Hp. cbn [List.length]. lia.
Qed.

Lemma parsed_request_derived_fields_witness :
  exists req,
    Close req = true /\ Host req = "example.com" /\
    Headers req !! "Connection" = Some "close".
Proof.
  assert (Hr : readRequest Util.CanonicalHeaderKey
                 (mkReader ["GET / HTTP/1.1"; "host: example.com";
                            "connection: close"; ""] EOF)
               = Ret (mkReadResult (Some (Example.request "/" true)) false None,
                      mkReader [] EOF))
    by (vm_compute; reflexivity).
  destruct (parsed_request_derived_fields Util.CanonicalHeaderKey _ _ _ _ Hr eq_refl)
    as (_ & _ & Hhost & Hclose & _).
  exists (Example.request "/" true). split; [reflexivity|]. split; [reflexivity|].
  apply Hclose. reflexivity.
Defined.

Lemma rev_app_rev_app (l acc t : string) :
  String.rev_app (String.rev_app l acc) t = String.rev_app acc (l ++ t).
Proof.
  revert acc t. induction l as [|a l IH]; intros acc t; [reflexivity|].
  cbn [String.rev_app]. rewrite IH. reflexivity.
Qed.

Lemma scanLines_line_acc (l rest acc : string) (n : nat) :
  Contains l LF = false ->
  (n + String.length l + 1 < defaultBufSize)%nat ->
  scanLines (l ++ CRLF ++ rest) acc n
  = String.rev (String.rev_app l acc) :: scanLines rest "" 0.
Proof.
  revert acc n. induction l as [|a l IH]; intros acc n Hl Hn.
  - rewrite append_nil_l. unfold CRLF. rewrite !append_cons, append_nil_l.
    cbn [scanLines String.rev_app].
    change (Ascii.eqb CR LF) with false. cbv iota.
    replace (Nat.eqb (S n) defaultBufSize) with false
      by (symmetry; apply Nat.eqb_neq; cbn [String.length] in Hn; lia).
    rewrite Ascii.eqb_refl. cbn [dropCR]. now rewrite Ascii.eqb_refl.
  - rewrite append_cons. cbn [scanLines Contains String.length] in *.
    destruct (Ascii.eqb a LF); [discriminate|].
    replace (Nat.eqb (S n) defaultBufSize) with false
      by (symmetry; apply Nat.eqb_neq; lia).
    rewrite IH by (auto; lia). reflexivity.
Qed.

(** The line reader hands out a line that fits the buffer without its
    CRLF, and goes on with the bytes after it. *)
Theorem line_reader_strips_crlf (l rest : string) :
  Contains l LF = false ->
  (String.length l + 1 < defaultBufSize)%nat ->
  scanLines (l ++ CRLF ++ rest) "" 0 = l :: scanLines rest "" 0.
Proof.
  intros Hl Hn. rewrite scanLines_line_acc by (auto; lia).
  unfold String.rev. rewrite rev_app_rev_app. cbn [String.rev_app].
  now rewrite append_nil_r.
Qed.

Lemma line_reader_strips_crlf_witness :
  pending (NewReader (mkConn ("Host: a" ++ CRLF ++ "GE") EOF))
  = "Host: a" :: scanLines "GE" "" 0.
Proof.
  apply (line_reader_strips_crlf "Host: a" "GE"); [reflexivity|].
  unfold defaultBufSize. cbn [String.length]. lia.
Defined.

Lemma init_headers_but_date fmt (w1 w2 : World) (res : Response)
    (req : option Request) (k : string) :
  k <> "Date" ->
  ResHeaders (init fmt w1 res req) !! k = ResHeaders (init fmt w2 res req) !! k.
Proof.
  intros Hk. unfold init. cbn [ResHeaders].
  destruct req as [r|]; [destruct (Close r)|];
    destruct (decide (k = "Connection")) as [->|Hc]; now simplify_map_eq.
Qed.

(** Two requests for the same target get the same response but for its
    [Date] header, as long as the files did not change in between. *)
Theorem same_request_same_response fmt mime (w1 w2 : World) (s : Server)
    (req : Request) (res1 res2 : Response) :
  (forall path, stat w1 path = stat w2 path) ->
  (forall path, readFile w1 path = readFile w2 path) ->
  handleGoodRequest fmt mime w1 s req = Ret res1 ->
  handleGoodRequest fmt mime w2 s req = Ret res2 ->
  StatusCode res1 = StatusCode res2 /\
  FilePath res1 = FilePath res2 /\
  (forall k, k <> "Date" -> ResHeaders res1 !! k = ResHeaders res2 !! k) /\
  writeBody w1 res1 = writeBody w2 res2.
Proof.
  intros Hstat Hfile. unfold handleGoodRequest.
  destruct (indexTarget (URL req)) as [url'|]; cbn [bind]; [|discriminate].
  unfold resolve. set (r := withURL req url').
  set (path := Filepath.JoinPath [mapGet (VirtualHosts s) (Host r); URL r]).
  assert (Hnf : forall a b,
             Ret (handleNotFound fmt w1 zeroResponse (Some r)) = Ret a ->
             Ret (handleNotFound fmt w2 zeroResponse (Some r)) = Ret b ->
             StatusCode a = StatusCode b /\ FilePath a = FilePath b /\
             (forall k, k <> "Date" -> ResHeaders a !! k = ResHeaders b !! k) /\
             writeBody w1 a = writeBody w2 b).
  { intros a b Ha Hb. injection Ha as <-. injection Hb as <-.
    repeat (split; [reflexivity|]). split; [|reflexivity].
    intros k Hk. unfold handleNotFound. cbn [ResHeaders].
    now apply init_headers_but_date. }
  destruct (Filepath.Rel _ path) as [rel|]; [|apply Hnf].
  destruct (HasPrefix rel ".."); [apply Hnf|].
  rewrite <- (Hstat path).
  destruct (stat w1 path) as [fi| |msg] eqn:Hst; [|apply Hnf|discriminate].
  destruct (IsDir fi); [apply Hnf|].
  unfold handleOK. cbn [FilePath init withFilePath].
  rewrite <- (Hstat path), Hst.
  intros H1 H2. injection H1 as <-. injection H2 as <-.
  cbn [StatusCode FilePath ResHeaders].
  repeat (split; [reflexivity|]). split.
  - intros k Hk.
    destruct (decide (k = "Content-Length")) as [->|H1]; [now simplify_map_eq|].
    destruct (decide (k = "Content-Type")) as [->|H2]; [now simplify_map_eq|].
    destruct (decide (k = "Last-Modified")) as [->|H3]; [now simplify_map_eq|].
    rewrite !lookup_insert_ne by congruence.
    exact (init_headers_but_date fmt w1 w2 (withFilePath zeroResponse path)
             (Some r) k Hk).
  - unfold writeBody. cbn [FilePath]. now rewrite Hfile.
Qed.

Lemma same_request_same_response_witness :
  exists res1 res2,
    handleGoodRequest Util.FormatTime Util.MIMETypeByExtension Example.world
      Example.server (Example.request "/" false) = Ret res1 /\
    handleGoodRequest Util.FormatTime Util.MIMETypeByExtension
      (mkWorld (stat Example.world) (readFile Example.world) 2060 true)
      Example.server (Example.request "/" false) = Ret res2 /\
    ResHeaders res1 !! "Content-Length" = ResHeaders res2 !! "Content-Length" /\
    ResHeaders res1 !! "Date" <> ResHeaders res2 !! "Date".
Proof.
  destruct (handleGoodRequest Util.FormatTime Util.MIMETypeByExtension Example.world
              Example.server (Example.request "/" false)) as [res1|] eqn:H1;
    [|vm_compute in H1; discriminate].
  destruct (handleGoodRequest Util.FormatTime Util.MIMETypeByExtension
              (mkWorld (stat Example.world) (readFile Example.world) 2060 true)
              Example.server (Example.request "/" false)) as [res2|] eqn:H2;
    [|vm_compute in H2; discriminate].
  exists res1, res2. split; [reflexivity|]. split; [reflexivity|].
  destruct (same_request_same_response Util.FormatTime Util.MIMETypeByExtension
              Example.world
              (mkWorld (stat Example.world) (readFile Example.world) 2060 true)
              Example.server (Example.request "/" false) res1 res2
              (fun _ => eq_refl) (fun _ => eq_refl) H1 H2)
    as (_ & _ & Hh & _).
  split; [apply Hh; discriminate|].
  vm_compute in H1, H2. injection H1 as <-. injection H2 as <-.
  vm_compute. discriminate.
Defined.

(** * The request line and the lines of a request *)

Lemma Cut_inv (s : string) (c : ascii) (a b : string) :
  Cut s c = Some (a, b) -> s = a ++ String c b /\ Contains a c = false.
Proof.
  revert a. induction s as [|x s IH]; intros a H; [discriminate|].
  cbn [Cut] in H. destruct (Ascii.eqb x c) eqn:E.
  - apply Ascii.eqb_eq in E. subst x. injection H as <- <-.
    split; [now rewrite append_nil_l|reflexivity].
  - destruct (Cut s c) as [[a' b']|]; [|discriminate]. injection H as <- <-.
    destruct (IH a' eq_refl) as [Hs Hc]. split.
    + rewrite append_cons. now rewrite <- Hs.
    + cbn [Contains]. now rewrite E.
Qed.

Lemma SplitN3_inv (s : string) (c : ascii) (x y z : string) :
  SplitN s c 3 = [x; y; z] ->
  s = x ++ String c (y ++ String c z) /\
  Contains x c = false /\ Contains y c = false.
Proof.
  cbn [SplitN]. intros H.
  destruct (Cut s c) as [[a b]|] eqn:E1; [|discriminate].
  destruct (Cut b c) as [[a' b']|] eqn:E2; [|discriminate].
  injection H as <- <- <-.
  destruct (Cut_inv _ _ _ _ E1) as [-> H1].
  destruct (Cut_inv _ _ _ _ E2) as [-> H2]. auto.
Qed.

Lemma SplitN3_fields (x y z : string) (c : ascii) :
  Contains x c = false -> Contains y c = false ->
  SplitN (x ++ String c (y ++ String c z)) c 3 = [x; y; z].
Proof.
  intros Hx Hy. cbn [SplitN].
  rewrite (Cut_app_first x _ c Hx), (Cut_app_first y _ c Hy). reflexivity.
Qed.

(** The request line of a target, as a client writes it. *)
Lemma requestLine_fields (url : string) :
  Contains url " " = false ->
  SplitN ("GET " ++ url ++ " HTTP/1.1") " " 3 = ["GET"; url; "HTTP/1.1"].
Proof.
  intros H. change ("GET " ++ url ++ " HTTP/1.1")
    with ("GET" ++ String " " (url ++ String " " "HTTP/1.1")).
  now apply SplitN3_fields.
Qed.

(** The only request line [readRequest] accepts is
    [GET <target> HTTP/1.1] with single spaces, where the target begins
    with a slash and has no space in it: the fields of a parsed request give
    its request line back, byte for byte. *)
Theorem accepted_request_line canon (br br' : Reader) (rr : ReadResult)
    (req : Request) :
  readRequest canon br = Ret (rr, br') ->
  rr_req rr = Some req ->
  exists rest,
    pending br = (Method req ++ " " ++ URL req ++ " " ++ Proto req) :: rest /\
    Method req = "GET" /\ Proto req = "HTTP/1.1" /\
    HasPrefix (URL req) "/" = true /\ Contains (URL req) " " = false.
Proof.
  intros Hr Hq. apply readRequest_cases in Hr.
  destruct Hr as [Hp|line rest e br2 Hp Hle Hfin H
                 |line rest url hdrs hostVal rest' Hp Hs Hu Hh Hlt Hhost];
    cbn [rr_req] in Hq; try discriminate.
  injection Hq as <-. cbn [Method URL Proto].
  destruct (SplitN3_inv _ _ _ _ _ Hs) as (Hline & _ & Hurl).
  exists rest. rewrite Hp, Hline. repeat split; auto.
Qed.

Lemma accepted_request_line_witness :
  exists rest,
    ["GET /a.html HTTP/1.1"; "host: example.com"; ""]
    = ("GET" ++ " " ++ "/a.html" ++ " " ++ "HTTP/1.1") :: rest.
Proof.
  assert (Hr : readRequest Util.CanonicalHeaderKey
                 (mkReader ["GET /a.html HTTP/1.1"; "host: example.com"; ""] EOF)
               = Ret (mkReadResult (Some (Example.request "/a.html" false)) false None,
                      mkReader [] EOF))
    by (vm_compute; reflexivity).
  destruct (accepted_request_line Util.CanonicalHeaderKey _ _ _ _ Hr eq_refl)
    as (rest & Hp & _).
  exists rest. exact Hp.
Defined.

(** * The line reader on whole lines, bare line feeds and long lines *)

Lemma rev_app_snoc (l : string) (a : ascii) (acc : string) :
  String.rev_app (l ++ String a "") acc = String a (String.rev_app l acc).
Proof.
  revert acc. induction l as [|c l IH]; intros acc; [reflexivity|].
  rewrite append_cons. cbn [String.rev_app]. apply IH.
Qed.

Lemma rev_rev_app (l : string) : String.rev (String.rev_app l "") = l.
Proof.
  unfold String.rev. rewrite rev_app_rev_app. cbn [String.rev_app].
  apply append_nil_r.
Qed.

Lemma string_snoc_cases (l : string) :
  l = "" \/ exists l' a, l = l' ++ String a "".
Proof.
  induction l as [|c l IH]; [now left|]. right.
  destruct IH as [->|(l' & a & ->)].
  - exists "", c. reflexivity.
  - exists (String c l'), a. now rewrite append_cons.
Qed.

Lemma trimCR_app_other (l : string) (a : ascii) :
  Ascii.eqb a CR = false -> trimCR (l ++ String a "") = l ++ String a "".
Proof.
  intros Ha. induction l as [|c l IH].
  - rewrite append_nil_l. cbn [trimCR]. now rewrite Ha.
  - rewrite append_cons. cbn [trimCR]. rewrite IH.
    destruct l; reflexivity.
Qed.

Lemma rev_dropCR (l : string) :
  String.rev (dropCR (String.rev_app l "")) = trimCR l.
Proof.
  destruct (string_snoc_cases l) as [->|(l' & a & ->)]; [reflexivity|].
  rewrite rev_app_snoc. cbn [dropCR]. destruct (Ascii.eqb a CR) eqn:Ha.
  - apply Ascii.eqb_eq in Ha. subst a. now rewrite rev_rev_app, trimCR_app.
  - rewrite trimCR_app_other by exact Ha.
    unfold String.rev. cbn [String.rev_app]. rewrite rev_app_rev_app.
    reflexivity.
Qed.

Lemma scanLines_lf_acc (l rest acc : string) (n : nat) :
  Contains l LF = false ->
  (n + String.length l < defaultBufSize)%nat ->
  scanLines (l ++ String LF rest) acc n
  = String.rev (dropCR (String.rev_app l acc)) :: scanLines rest "" 0.
Proof.
  revert acc n. induction l as [|a l IH]; intros acc n Hl Hn.
  - rewrite append_nil_l. cbn [scanLines String.rev_app].
    now rewrite Ascii.eqb_refl.
  - rewrite append_cons. cbn [scanLines Contains String.length String.rev_app] in *.
    destruct (Ascii.eqb a LF); [discriminate|].
    replace (Nat.eqb (S n) defaultBufSize) with false
      by (symmetry; apply Nat.eqb_neq; lia).
    rewrite IH by (auto; lia). reflexivity.
Qed.

Lemma scanLines_full_acc (l rest acc : string) (a : ascii) (n : nat) :
  Contains l LF = false -> Ascii.eqb a LF = false -> Ascii.eqb a CR = false ->
  (n + String.length l + 1 = defaultBufSize)%nat ->
  scanLines ((l ++ String a "") ++ rest) acc n
  = String.rev (String a (String.rev_app l acc)) :: scanLines rest "" 0.
Proof.
  intros Hl Ha1 Ha2. revert acc n. induction l as [|c l IH]; intros acc n Hn.
  - rewrite append_nil_l, append_cons, append_nil_l.
    cbn [scanLines String.rev_app String.length] in *. rewrite Ha1.
    replace (Nat.eqb (S n) defaultBufSize) with true
      by (symmetry; apply Nat.eqb_eq; lia).
    now rewrite Ha2.
  - rewrite !append_cons. cbn [scanLines Contains String.length String.rev_app] in *.
    destruct (Ascii.eqb c LF); [discriminate|].
    replace (Nat.eqb (S n) defaultBufSize) with false
      by (symmetry; apply Nat.eqb_neq; lia).
    apply IH; [exact Hl|lia].
Qed.

Lemma scanLines_crlf_line (l rest : string) :
  Contains l LF = false ->
  (String.length l + 1 < defaultBufSize)%nat ->
  scanLines (l ++ CRLF ++ rest) "" 0 = l :: scanLines rest "" 0.
Proof.
  intros Hl Hn. rewrite scanLines_line_acc by (auto; lia).
  now rewrite rev_rev_app.
Qed.

Lemma shortLine_spec (l : string) :
  shortLine l = true <->
  Contains l LF = false /\ (String.length l + 1 < defaultBufSize)%nat.
Proof.
  unfold shortLine. rewrite andb_true_iff, negb_true_iff, Nat.ltb_lt. tauto.
Qed.

Lemma wire_cons (l : string) (ls : list string) (rest : string) :
  wire (l :: ls) ++ rest = l ++ CRLF ++ (wire ls ++ rest).
Proof.
  unfold wire. cbn [map writeAll]. now rewrite !append_assoc.
Qed.

Lemma scanLines_wire (lines : list string) (rest : string) :
  Forall (fun l => shortLine l = true) lines ->
  scanLines (wire lines ++ rest) "" 0 = (lines ++ scanLines rest "" 0)%list.
Proof.
  induction 1 as [|l ls Hl _ IH].
  - unfold wire. cbn [map writeAll]. now rewrite append_nil_l.
  - apply shortLine_spec in Hl. destruct Hl as [Hl Hn].
    rewrite wire_cons, scanLines_crlf_line by assumption.
    cbn [app]. now rewrite IH.
Qed.

(** A bare line feed ends a line as well as CRLF does: the line reader hands
    out the bytes before the line feed, less one carriage return at their
    end, and goes on after the line feed. So the parser takes requests whose
    lines end in a line feed alone. *)
Theorem line_reader_accepts_bare_lf (l rest : string) :
  Contains l LF = false ->
  (String.length l < defaultBufSize)%nat ->
  scanLines (l ++ String LF rest) "" 0 = trimCR l :: scanLines rest "" 0.
Proof.
  intros Hl Hn. rewrite scanLines_lf_acc by (auto; lia).
  now rewrite rev_dropCR.
Qed.

Lemma line_reader_accepts_bare_lf_witness :
  pending (NewReader (mkConn ("GET / HTTP/1.1" ++ String LF "Host: a") EOF))
  = "GET / HTTP/1.1" :: scanLines "Host: a" "" 0.
Proof.
  apply (line_reader_accepts_bare_lf "GET / HTTP/1.1" "Host: a"); [reflexivity|].
  unfold defaultBufSize. cbn [String.length]. lia.
Defined.

(** A run of 4096 bytes without a line feed fills the buffer: the line
    reader hands the 4096 bytes out as a line of their own (the caller does
    not look at the flag that says so) and starts a new line after them. A
    request line or header line of 4096 bytes or more reaches the parser in
    pieces. *)
Theorem line_reader_splits_long_line (l rest : string) (a : ascii) :
  Contains l LF = false -> Ascii.eqb a LF = false -> Ascii.eqb a CR = false ->
  (String.length l + 1 = defaultBufSize)%nat ->
  scanLines ((l ++ String a "") ++ rest) "" 0
  = (l ++ String a "") :: scanLines rest "" 0.
Proof.
  intros Hl Ha1 Ha2 Hn. rewrite (scanLines_full_acc l rest "" a 0) by (auto; lia).
  unfold String.rev. cbn [String.rev_app]. rewrite rev_app_rev_app.
  reflexivity.
Qed.

Lemma line_reader_splits_long_line_witness :
  let l := string_of_list_ascii (repeat "a"%char 4095) in
  scanLines ((l ++ "b") ++ "c" ++ CRLF) "" 0
  = (l ++ "b") :: scanLines ("c" ++ CRLF) "" 0.
Proof.
  cbv zeta.
  apply (line_reader_splits_long_line
           (string_of_list_ascii (repeat "a"%char 4095)) ("c" ++ CRLF) "b"%char);
    [vm_compute; reflexivity | reflexivity | reflexivity | vm_compute; reflexivity].
Defined.

(** * A well-formed request is parsed, and the bytes after it are left *)

Lemma readRequest_well_formed canon (url : string) (hs tail : list string)
    (fin : error) :
  HasPrefix url "/" = true -> Contains url " " = false ->
  Forall (fun l => l <> "" /\ Contains l ":" = true) hs ->
  existsb (fun l => String.eqb (canon (headerName l)) "Host") hs = true ->
  exists req,
    readRequest canon (mkReader (("GET " ++ url ++ " HTTP/1.1") :: hs ++ "" :: tail) fin)
    = Ret (mkReadResult (Some req) false None, mkReader tail fin) /\
    URL req = url /\ Headers req = fold_left (addHeader canon) hs ∅.
Proof.
  intros Hu Hsp Hhs Hhost.
  unfold readRequest, readLine. cbn [pending final]. unfold parseRequestLine.
  rewrite requestLine_fields by assumption.
  cbn [List.length Nat.eqb negb elemAt nth_error bind].
  rewrite String.eqb_refl. cbn [negb].
  destruct url as [|c r]; [discriminate|]. rewrite byteAt_cons_0. cbn [bind].
  cbn [HasPrefix] in Hu. apply andb_true_iff in Hu. destruct Hu as [Hc _].
  apply Ascii.eqb_eq in Hc. subst c.
  rewrite !String.eqb_refl. cbn [negb].
  rewrite (readHeaders_block canon hs _ fin ∅ Hhs).
  cbn [readHeaders String.eqb bind].
  assert (Hsome : is_Some (fold_left (addHeader canon) hs ∅ !! "Host"))
    by (apply fold_addHeader_lookup; now right).
  destruct Hsome as [hostVal Hv]. rewrite Hv.
  eexists. split; [reflexivity|]. split; reflexivity.
Qed.

(** The bytes of a well-formed request are parsed into a request, and the
    reader is left exactly where the bytes after the request begin: the
    request line [GET <target> HTTP/1.1], header lines with a colon, one of
    them named [Host], the empty line, each line ended by CRLF and short
    enough for the buffer. Whatever follows, a pipelined request or nothing,
    is not touched. *)
Theorem request_bytes_parsed_rest_left canon (url : string) (hs : list string)
    (rest : string) (e : error) :
  HasPrefix url "/" = true -> Contains url " " = false ->
  Forall (fun l => l <> "" /\ Contains l ":" = true) hs ->
  Forall (fun l => shortLine l = true) (("GET " ++ url ++ " HTTP/1.1") :: hs) ->
  existsb (fun l => String.eqb (canon (headerName l)) "Host") hs = true ->
  exists req,
    readRequest canon
      (NewReader (mkConn (wire (("GET " ++ url ++ " HTTP/1.1") :: hs ++ [""]) ++ rest) e))
    = Ret (mkReadResult (Some req) false None, NewReader (mkConn rest e)) /\
    URL req = url /\ Headers req = fold_left (addHeader canon) hs ∅.
Proof.
  intros Hu Hsp Hhs Hshort Hhost. unfold NewReader. cbn [incoming ending].
  rewrite scanLines_wire.
  - cbn [app]. rewrite <- app_assoc. cbn [app].
    now apply readRequest_well_formed.
  - rewrite app_comm_cons. apply Forall_app. split; [exact Hshort|].
    constructor; [reflexivity|constructor].
Qed.

Lemma request_bytes_parsed_rest_left_witness :
  exists req,
    readRequest Util.CanonicalHeaderKey
      (NewReader (mkConn (wire (("GET " ++ "/a.html" ++ " HTTP/1.1")
                                  :: ["host: example.com"] ++ [""]) ++ "GET /b") EOF))
    = Ret (mkReadResult (Some req) false None, NewReader (mkConn "GET /b" EOF)) /\
    URL req = "/a.html".
Proof.
  destruct (request_bytes_parsed_rest_left Util.CanonicalHeaderKey "/a.html"
              ["host: example.com"] "GET /b" EOF) as (req & Hr & Hurl & _).
  - reflexivity.
  - reflexivity.
  - repeat constructor; discriminate.
  - repeat constructor.
  - vm_compute; reflexivity.
  - exists req. split; assumption.
Defined.

(** * The header loop reads back what the header writer writes *)

Lemma addHeader_written canon (m acc : gmap string string) (k : string) :
  canon k = k -> Contains k ":" = false ->
  Contains (mapGet m k) ":" = false -> HasPrefix (mapGet m k) " " = false ->
  addHeader canon acc (headerText m k) = <[k := mapGet m k]> acc.
Proof.
  intros Hc Hk Hv Hs. unfold addHeader.
  destruct (headerValue_one_colon (headerText m k) k (String " " (mapGet m k)))
    as [Hn Hval]; [now apply Cut_headerText|exact Hv|].
  rewrite Hn, Hval, Hc. unfold valueAfterFirstColon.
  rewrite (Cut_headerText m k Hk). cbn [TrimLeft]. rewrite Ascii.eqb_refl.
  now rewrite (TrimLeft_id _ _ Hs).
Qed.

Lemma Contains_headerText (m : gmap string string) (k : string) :
  Contains (headerText m k) ":" = true.
Proof.
  unfold headerText. rewrite Contains_app.
  change (": " ++ mapGet m k) with (String ":" (String " " (mapGet m k))).
  cbn [Contains]. rewrite Ascii.eqb_refl. apply orb_true_r.
Qed.

(** The header block the writer produces for a header map is read back by
    the header loop of the request parser as the same map, when the names
    are canonical and have no colon, and the values have no colon and no
    leading space. (A value with a colon is cut, see the fourth claim.) *)
Theorem written_headers_read_back canon (m : gmap string string)
    (tail : list string) (fin : error) :
  (forall k v, m !! k = Some v ->
     canon k = k /\ Contains k ":" = false /\
     Contains v ":" = false /\ HasPrefix v " " = false) ->
  readHeaders canon (map (headerText m) (sortedKeys m) ++ "" :: tail) fin ∅
  = Ret (inr m, tail).
Proof.
  intros Hm.
  assert (Hkeys : Forall (fun k => is_Some (m !! k)) (sortedKeys m)).
  { apply Forall_forall. intros k Hk. now apply sortedKeys_elem. }
  rewrite readHeaders_block.
  - cbn [readHeaders String.eqb].
    assert (Hfold : forall acc,
               fold_left (addHeader canon) (map (headerText m) (sortedKeys m)) acc
               = fold_left (fun a k => <[k := mapGet m k]> a) (sortedKeys m) acc).
    { induction Hkeys as [|k ks [v Hv] _ IH]; intros acc; [reflexivity|].
      cbn [map fold_left]. destruct (Hm k v Hv) as (Hc & Hk & Hcv & Hsv).
      rewrite addHeader_written; rewrite ?(mapGet_Some m k v Hv); auto. }
    now rewrite Hfold, fold_insert_sortedKeys.
  - apply Forall_forall. intros l Hl.
    apply list_elem_of_In, in_map_iff in Hl. destruct Hl as (k & <- & _).
    split; [apply headerText_nonempty|apply Contains_headerText].
Qed.

Lemma written_headers_read_back_witness :
  readHeaders Util.CanonicalHeaderKey
    (map (headerText {[ "Host" := "example.com" ]})
         (sortedKeys {[ "Host" := "example.com" ]}) ++ "" :: ["next"]) EOF ∅
  = Ret (inr {[ "Host" := "example.com" ]}, ["next"]).
Proof.
  apply (written_headers_read_back Util.CanonicalHeaderKey
           {[ "Host" := "example.com" ]} ["next"] EOF).
  intros k v H. apply lookup_singleton_Some in H. destruct H as [<- <-].
  repeat split; reflexivity.
Defined.

(** * The resolver: index documents, and what a 200 stands for *)

Lemma length_append (a b : string) :
  String.length (a ++ b) = (String.length a + String.length b)%nat.
Proof.
  induction a as [|c a IH]; [now rewrite append_nil_l|].
  rewrite append_cons. cbn [String.length]. now rewrite IH.
Qed.

Lemma get_append_last (v t : string) (a : ascii) :
  String.get (String.length v) (v ++ String a t) = Some a.
Proof.
  induction v as [|c v IH]; [now rewrite append_nil_l|].
  rewrite append_cons. cbn [String.length String.get]. exact IH.
Qed.

Lemma byteAt_last (v : string) (a : ascii) :
  byteAt (v ++ String a "") (Z.of_nat (String.length (v ++ String a "")) - 1) = Ret a.
Proof.
  rewrite length_append. cbn [String.length]. unfold byteAt.
  replace (Z.of_nat (String.length v + 1) - 1) with (Z.of_nat (String.length v)) by lia.
  rewrite Nat2Z.id, length_append, get_append_last. cbn [String.length].
  destruct (Z.ltb_spec (Z.of_nat (String.length v)) 0); [lia|].
  destruct (Z.leb_spec (Z.of_nat (String.length v + 1)) (Z.of_nat (String.length v)));
    [lia|reflexivity].
Qed.

Lemma indexTarget_snoc (v : string) (a : ascii) :
  indexTarget (v ++ String a "")
  = Ret (if Ascii.eqb a "/" then (v ++ String a "") ++ "index.html"
         else v ++ String a "").
Proof.
  unfold indexTarget. rewrite byteAt_last. cbn [bind].
  now rewrite one_byte_eqb.
Qed.

Lemma indexTarget_nonempty (url url' : string) :
  indexTarget url = Ret url' -> url' <> "".
Proof.
  destruct (string_snoc_cases url) as [->|(v & a & ->)]; [discriminate|].
  rewrite indexTarget_snoc. intros H. injection H as <-.
  assert (Hne : v ++ String a "" <> "") by (destruct v; discriminate).
  destruct (Ascii.eqb a "/"); [|exact Hne].
  destruct (v ++ String a ""); [congruence|discriminate].
Qed.

(** A target that ends in a slash is answered exactly as the same target
    with [index.html] after the slash: same status, same headers, same file,
    and the same request kept in the response. *)
Theorem directory_target_serves_index fmt mime (w : World) (s : Server)
    (req : Request) (dir : string) :
  handleGoodRequest fmt mime w s (withURL req (dir ++ "/"))
  = handleGoodRequest fmt mime w s (withURL req (dir ++ "/index.html")).
Proof.
  unfold handleGoodRequest. cbn [URL withURL].
  replace (dir ++ "/index.html") with ((dir ++ "/index.htm") ++ String "l" "")
    by (now rewrite append_assoc).
  change (dir ++ "/") with (dir ++ String "/" "").
  rewrite !indexTarget_snoc. cbn [Ascii.eqb Bool.eqb bind].
  unfold withURL. cbn [Method Proto Headers Host Close].
  now rewrite !append_assoc.
Qed.

Section ResolverCases.

Variable fmt : Time -> string.
Variable mime : string -> string.
Variable w : World.
Variable s : Server.

(** The two ways [handleGoodRequest] returns. *)
Lemma handleGoodRequest_inv (req : Request) (res : Response) :
  handleGoodRequest fmt mime w s req = Ret res ->
  exists url',
    indexTarget (URL req) = Ret url' /\
    let docroot := mapGet (VirtualHosts s) (Host req) in
    let path := Filepath.JoinPath [docroot; url'] in
    (res = handleNotFound fmt w zeroResponse (Some (withURL req url')) /\
     ((forall rel, Filepath.Rel docroot path = Some rel -> HasPrefix rel ".." = true)
      \/ stat w path = StatNotExist
      \/ exists fi, stat w path = StatOk fi /\ IsDir fi = true))
    \/ (exists rel fi,
          Filepath.Rel docroot path = Some rel /\ HasPrefix rel ".." = false /\
          stat w path = StatOk fi /\ IsDir fi = false /\
          handleOK fmt mime w (withFilePath zeroResponse path) (Some (withURL req url'))
          = Ret res).
Proof.
  unfold handleGoodRequest.
  destruct (indexTarget (URL req)) as [url'|]; cbn [bind]; [|discriminate].
  intros H. exists url'. split; [reflexivity|]. cbn zeta.
  unfold resolve in H. cbn [Host URL withURL] in H.
  destruct (Filepath.Rel _ _) as [rel|] eqn:Hrel.
  2:{ left. injection H as <-. split; [reflexivity|]. left. discriminate. }
  destruct (HasPrefix rel "..") eqn:Hpre.
  { left. injection H as <-. split; [reflexivity|]. left.
    intros rel' E. injection E as <-. exact Hpre. }
  destruct (stat w _) as [fi| |msg] eqn:Hst; [|left|discriminate].
  - destruct (IsDir fi) eqn:Hdir.
    + left. injection H as <-. split; [reflexivity|]. right. right. eauto.
    + right. exists rel, fi. auto.
  - injection H as <-. split; [reflexivity|]. right. left. reflexivity.
Qed.

Lemma handleOK_inv (path : string) (req : option Request) (fi : FileInfo)
    (res : Response) :
  stat w path = StatOk fi ->
  handleOK fmt mime w (withFilePath zeroResponse path) req = Ret res ->
  res = mkResponse responseProto statusOK "OK"
          (<["Content-Length" := Sprint (Size fi)]>
             (<["Content-Type" := mime (Filepath.Ext path)]>
                (<["Last-Modified" := fmt (ModTime fi)]>
                   (ResHeaders (init fmt w (withFilePath zeroResponse path) req)))))
          req path.
Proof.
  intros Hst. unfold handleOK. cbn [FilePath init withFilePath]. rewrite Hst.
  intros H. injection H as <-. reflexivity.
Qed.

End ResolverCases.

Lemma Clean_nonempty (path : string) : Filepath.Clean path <> "".
Proof.
  unfold Filepath.Clean. destruct path as [|c r]; [discriminate|].
  destruct (Ascii.eqb c Filepath.Separator); [discriminate|].
  destruct (String.eqb _ "") eqn:E; [discriminate|].
  now apply String.eqb_neq in E.
Qed.

Lemma JoinPath_nonempty (docroot url : string) :
  url <> "" -> Filepath.JoinPath [docroot; url] <> "".
Proof.
  intros Hne. cbn [Filepath.JoinPath].
  destruct (String.eqb docroot ""); [|apply Clean_nonempty].
  apply String.eqb_neq in Hne. rewrite Hne. apply Clean_nonempty.
Qed.

(** What the status of an answer to a parsed request stands for. The status
    is 200 or 404. A 200 is given only for a path that [filepath.Rel] places
    inside the document root of the host, that exists and is not a
    directory; its file is the joined path and its three entity headers
    are read off that file. A 404 has no file and no body. *)
Theorem ok_only_for_a_file_inside_the_root fmt mime (w : World) (s : Server)
    (req : Request) (res : Response) :
  handleGoodRequest fmt mime w s req = Ret res ->
  (StatusCode res = statusOK \/ StatusCode res = statusNotFound) /\
  (StatusCode res = statusNotFound -> FilePath res = "" /\ writeBody w res = "") /\
  (StatusCode res = statusOK ->
   exists url' rel fi,
     indexTarget (URL req) = Ret url' /\
     FilePath res
     = Filepath.JoinPath [mapGet (VirtualHosts s) (Host req); url'] /\
     Filepath.Rel (mapGet (VirtualHosts s) (Host req)) (FilePath res) = Some rel /\
     HasPrefix rel ".." = false /\
     stat w (FilePath res) = StatOk fi /\ IsDir fi = false /\
     ResHeaders res !! "Content-Length" = Some (Sprint (Size fi)) /\
     ResHeaders res !! "Content-Type" = Some (mime (Filepath.Ext (FilePath res))) /\
     ResHeaders res !! "Last-Modified" = Some (fmt (ModTime fi))).
Proof.
  intros H. apply handleGoodRequest_inv in H.
  destruct H as (url' & Hu & [[-> _]|(rel & fi & Hrel & Hpre & Hst & Hdir & Hok)]).
  - split; [now right|]. split; [now split|]. discriminate.
  - apply (handleOK_inv fmt mime w _ _ fi) in Hok; [|exact Hst]. subst res.
    cbn [StatusCode FilePath ResHeaders].
    split; [now left|]. split; [discriminate|]. intros _.
    exists url', rel, fi. repeat (split; [assumption || reflexivity|]).
    split; [now rewrite lookup_insert_eq|].
    split; [now rewrite lookup_insert_ne, lookup_insert_eq by discriminate|].
    now rewrite !lookup_insert_ne, lookup_insert_eq by discriminate.
Qed.

Lemma ok_only_for_a_file_inside_the_root_witness :
  exists rel fi,
    Filepath.Rel "/srv/www" "/srv/www/index.html" = Some rel /\
    HasPrefix rel ".." = false /\
    stat Example.world "/srv/www/index.html" = StatOk fi /\ IsDir fi = false.
Proof.
  destruct (ok_only_for_a_file_inside_the_root Util.FormatTime
              Util.MIMETypeByExtension Example.world Example.server
              (Example.request "/" false)
              (mkResponse "HTTP/1.1" 200 "OK"
                 (<["Content-Length" := "5"]>
                    (<["Content-Type" := "text/html; charset=utf-8"]>
                       (<["Last-Modified" := "1000"]> (<["Date" := "2000"]> ∅))))
                 (Some (Example.request "/index.html" false))
                 "/srv/www/index.html"))
    as (_ & _ & Hok); [vm_compute; reflexivity|].
  destruct (Hok eq_refl) as (url' & rel & fi & _ & _ & Hrel & Hpre & Hst & Hdir & _).
  exists rel, fi. auto.
Defined.

(** * The headers of the responses, and the length of the body *)

Lemma init_header_names fmt (w : World) (res : Response) (req : option Request) :
  dom (ResHeaders (init fmt w res req))
  =@{gset string}
    {["Date"]} ∪ (match closeHeader req with Some _ => {["Connection"]} | None => ∅ end).
Proof.
  unfold init, closeHeader. cbn [ResHeaders].
  destruct req as [r|]; [destruct (Close r)|];
    rewrite ?dom_insert_L, dom_empty_L; set_solver.
Qed.

Lemma init_date fmt (w : World) (res : Response) (req : option Request) :
  ResHeaders (init fmt w res req) !! "Date" = Some (fmt (now w)).
Proof.
  unfold init. cbn [ResHeaders].
  destruct req as [r|]; [destruct (Close r)|]; now simplify_map_eq.
Qed.

(** The headers the server sends. A 400 has [Date] and [Connection]. An
    answer to a parsed request has [Date], has [Connection] exactly when
    the request asked to close, and has [Content-Length], [Content-Type] and
    [Last-Modified] exactly when it is a 200. No response has any other
    header, and [Date] is always the formatted time of the host when the
    response is built. *)
Theorem response_header_names fmt mime (w : World) (s : Server) :
  (forall req,
     let res := handleBadRequest fmt w zeroResponse req in
     dom (ResHeaders res) =@{gset string} {["Date"; "Connection"]} /\
     ResHeaders res !! "Date" = Some (fmt (now w))) /\
  (forall req res,
     handleGoodRequest fmt mime w s req = Ret res ->
     dom (ResHeaders res)
     =@{gset string}
       {["Date"]} ∪ (if Close req then {["Connection"]} else ∅)
       ∪ (if StatusCode res =? statusOK
          then {["Content-Length"; "Content-Type"; "Last-Modified"]} else ∅) /\
     ResHeaders res !! "Date" = Some (fmt (now w))).
Proof.
  split.
  - intros req. cbn zeta. unfold handleBadRequest. cbn [ResHeaders]. split.
    + rewrite dom_insert_L, init_header_names.
      destruct (closeHeader req); set_solver.
    + rewrite lookup_insert_ne by discriminate. apply init_date.
  - intros req res H. apply handleGoodRequest_inv in H.
    destruct H as (url' & Hu & [[-> _]|(rel & fi & Hrel & Hpre & Hst & Hdir & Hok)]).
    + unfold handleNotFound. cbn [ResHeaders StatusCode]. split; [|apply init_date].
      rewrite init_header_names. cbn [closeHeader withURL Close].
      destruct (Close req); set_solver.
    + apply (handleOK_inv fmt mime w _ _ fi) in Hok; [|exact Hst]. subst res.
      cbn [StatusCode ResHeaders]. split.
      * rewrite !dom_insert_L, init_header_names.
        cbn [closeHeader withURL Close].
        change (statusOK =? statusOK) with true. cbv iota.
        destruct (Close req); set_solver.
      * rewrite !lookup_insert_ne by discriminate. apply init_date.
Qed.

(** On a host where a file has as many bytes as [os.Stat] reports, the
    [Content-Length] of a 200 whose file can be opened is the number of
    bytes of the body that is written; a 404 has neither the header nor a
    body. *)
Theorem content_length_is_body_length fmt mime (w : World) (s : Server)
    (req : Request) (res : Response) :
  sizesAgree w ->
  handleGoodRequest fmt mime w s req = Ret res ->
  (StatusCode res = statusOK -> is_Some (readFile w (FilePath res)) ->
   ResHeaders res !! "Content-Length"
   = Some (Sprint (Z.of_nat (String.length (writeBody w res))))) /\
  (StatusCode res = statusNotFound ->
   ResHeaders res !! "Content-Length" = None /\ writeBody w res = "").
Proof.
  intros Hsz H. apply handleGoodRequest_inv in H.
  destruct H as (url' & Hu & [[-> _]|(rel & fi & Hrel & Hpre & Hst & Hdir & Hok)]).
  - split; [discriminate|]. intros _. split; [|reflexivity].
    unfold handleNotFound, init. cbn [ResHeaders withURL Close].
    destruct (Close req); now simplify_map_eq.
  - apply (handleOK_inv fmt mime w _ _ fi) in Hok; [|exact Hst]. subst res.
    cbn [StatusCode FilePath ResHeaders]. split; [|discriminate].
    intros _ [content Hc]. rewrite lookup_insert_eq.
    unfold writeBody. cbn [FilePath].
    pose proof (JoinPath_nonempty (mapGet (VirtualHosts s) (Host req)) url'
                  (indexTarget_nonempty _ _ Hu)) as Hne.
    apply String.eqb_neq in Hne. rewrite Hne, Hc.
    now rewrite (Hsz _ _ _ Hst Hc).
Qed.

Lemma content_length_is_body_length_witness :
  exists res,
    handleGoodRequest Util.FormatTime Util.MIMETypeByExtension Example.world
      Example.server (Example.request "/" false) = Ret res /\
    writeBody Example.world res = "hello" /\
    ResHeaders res !! "Content-Length" = Some "5".
Proof.
  assert (Hsz : sizesAgree Example.world).
  { intros path fi content Hst Hc. unfold Example.world in *. cbn [stat readFile] in *.
    destruct (String.eqb path "/srv/www/index.html") eqn:E.
    - injection Hc as <-. injection Hst as <-. reflexivity.
    - discriminate. }
  assert (Hres : handleGoodRequest Util.FormatTime Util.MIMETypeByExtension
                   Example.world Example.server (Example.request "/" false)
                 = Ret (mkResponse "HTTP/1.1" 200 "OK"
                          (<["Content-Length" := "5"]>
                             (<["Content-Type" := "text/html; charset=utf-8"]>
                                (<["Last-Modified" := "1000"]>
                                   (<["Date" := "2000"]> ∅))))
                          (Some (Example.request "/index.html" false))
                          "/srv/www/index.html"))
    by (vm_compute; reflexivity).
  eexists. split; [exact Hres|]. split; [reflexivity|].
  apply (proj1 (content_length_is_body_length Util.FormatTime
                  Util.MIMETypeByExtension Example.world Example.server
                  _ _ Hsz Hres) eq_refl).
  vm_compute. eauto.
Defined.

(** * Runs of the handler: several requests on one connection *)

Lemma prepend_prepend (a b : string) (r : Run) :
  prepend a (prepend b r) = prepend (a ++ b) r.
Proof. destruct r; cbn [prepend]; now rewrite ?append_assoc. Qed.

Lemma prepend_nil (r : Run) : prepend "" r = r.
Proof. destruct r; cbn [prepend]; now rewrite ?append_nil_l. Qed.

Section HandlerRuns.

Variable canon : string -> string.
Variable fmt : Time -> string.
Variable mime : string -> string.
Variable s : Server.

Local Abbreviation turn := (serveTurn canon fmt mime s).
Local Abbreviation loop fuel := (serve canon fmt mime fuel s).

(** What was written before a run comes first in what the run writes. *)
Lemma serve_written (ws : nat -> World) (fuel k : nat) (br : Reader) (out : string) :
  loop fuel ws k br out = prepend out (loop fuel ws k br "").
Proof.
  revert k br out. induction fuel as [|fuel IH]; intros k br out; [reflexivity|].
  cbn [serve]. destruct (turn (ws k) br) as [[o|o br']|msg]; cbn [prepend].
  - now rewrite append_nil_l.
  - rewrite (IH _ _ (out ++ o)), (IH _ _ ("" ++ o)), prepend_prepend.
    now rewrite append_nil_l.
  - now rewrite append_nil_r.
Qed.

(** More fuel than the loop needs changes nothing. *)
Lemma serve_fuel (ws : nat -> World) (f1 f2 k : nat) (br : Reader) (out : string) :
  (List.length (pending br) < f1)%nat -> (List.length (pending br) < f2)%nat ->
  loop f1 ws k br out = loop f2 ws k br out.
Proof.
  revert f2 k br out. induction f1 as [|f1 IH]; intros f2 k br out H1 H2; [lia|].
  destruct f2 as [|f2]; [lia|]. cbn [serve].
  destruct (turn (ws k) br) as [[o|o br']|msg] eqn:Ht; try reflexivity.
  apply turn_keep_alive_shorter in Ht. apply IH; lia.
Qed.

(** The loop looks at the hosts from its current turn on only. *)
Lemma serve_hosts (ws1 ws2 : nat -> World) (fuel k1 k2 : nat) (br : Reader)
    (out : string) :
  (forall i, ws1 (k1 + i)%nat = ws2 (k2 + i)%nat) ->
  loop fuel ws1 k1 br out = loop fuel ws2 k2 br out.
Proof.
  revert k1 k2 br out. induction fuel as [|fuel IH]; intros k1 k2 br out H;
    [reflexivity|].
  cbn [serve]. pose proof (H 0%nat) as H0. rewrite !Nat.add_0_r in H0. rewrite H0.
  destruct (turn (ws2 k2) br) as [[o|o br']|msg]; try reflexivity.
  apply IH. intros i. specialize (H (S i)).
  now rewrite !Nat.add_succ_r in H.
Qed.

(** What one turn writes: nothing, or one whole response. A turn that keeps
    the connection open wrote a 200 or a 404 without [Connection] header. *)
Lemma turn_written (w : World) (br : Reader) (t : Turn) :
  turn w br = Ret t ->
  match t with
  | Closed o =>
      o = "" \/ exists res, o = Write w res /\ knownResponse (w, res) = true
  | KeepAlive o _ =>
      exists res, o = Write w res /\ knownResponse (w, res) = true /\
                  StatusCode res <> statusBadRequest /\
                  ResHeaders res !! "Connection" = None
  end.
Proof.
  assert (Hgood : forall req res,
             handleGoodRequest fmt mime w s req = Ret res ->
             knownResponse (w, res) = true /\ StatusCode res <> statusBadRequest).
  { intros req res H. apply handleGoodRequest_inv in H.
    destruct H as (url' & Hu & [[-> _]|(rel & fi & Hrel & Hpre & Hst & Hdir & Hok)]).
    - split; [reflexivity|discriminate].
    - apply (handleOK_inv fmt mime w _ _ fi) in Hok; [|exact Hst]. subst res.
      split; [reflexivity|discriminate]. }
  unfold serveTurn. destruct (deadlineArmed w); cbn [negb].
  2:{ intros H. injection H as <-. now left. }
  destruct (readRequest canon br) as [[rr br1]|]; cbn [bind]; [|discriminate].
  destruct (rr_err rr) as [e|].
  - assert (Hbad : forall o, o = badRequestBytes fmt w (rr_req rr) ->
               o = "" \/ exists res, o = Write w res /\ knownResponse (w, res) = true).
    { intros o ->. right. eexists. split; reflexivity. }
    destruct (is_EOF e); [intros H; injection H as <-; now left|].
    destruct (is_Timeout e); [destruct (rr_noReq rr)|];
      intros H; injection H as <-; auto.
  - destruct (rr_req rr) as [req|]; [|discriminate].
    destruct (handleGoodRequest fmt mime w s req) as [res|] eqn:Hg; cbn [bind];
      [|discriminate].
    destruct (Hgood _ _ Hg) as [Hk Hn].
    pose proof (handleGoodRequest_connection fmt mime w s req res Hg) as Hc.
    destruct (Close req); intros H; injection H as <-.
    + right. eauto.
    + intros. eauto.
Qed.

End HandlerRuns.

(** Serving a connection whose first request is parsed and answered: when
    the request asks to close, the answer is all that is written, whatever
    bytes follow; otherwise the answer is followed by exactly what the
    handler writes when it serves the rest of the connection from the next
    turn's host on. Pipelined and successive requests on one connection are
    answered one after the other, in order. *)
Theorem keep_alive_composes canon fmt mime (s : Server) (ws : nat -> World)
    (conn rest : Conn) (rr : ReadResult) (req : Request) (res : Response) :
  deadlineArmed (ws 0%nat) = true ->
  readRequest canon (NewReader conn) = Ret (rr, NewReader rest) ->
  rr_req rr = Some req ->
  handleGoodRequest fmt mime (ws 0%nat) s req = Ret res ->
  handleClientConnections canon fmt mime s ws conn
  = if Close req then Returned (Write (ws 0%nat) res)
    else prepend (Write (ws 0%nat) res)
           (handleClientConnections canon fmt mime s (fun k => ws (S k)) rest).
Proof.
  intros Hd Hr Hq Hg.
  remember (handleClientConnections canon fmt mime s (fun k => ws (S k)) rest)
    as after eqn:Hafter.
  unfold handleClientConnections. cbn [serve].
  pose proof (turn_on_request canon fmt mime s _ _ _ _ _ _ Hd Hr Hq Hg) as Ht.
  rewrite Ht. destruct (Close req); [now rewrite append_nil_l|].
  apply turn_keep_alive_shorter in Ht.
  rewrite serve_written, append_nil_l. f_equal.
  rewrite (serve_fuel canon fmt mime s ws _ (S (List.length (pending (NewReader rest)))))
    by lia.
  subst after. unfold handleClientConnections.
  apply serve_hosts. intros i. reflexivity.
Qed.

Lemma keep_alive_composes_witness :
  Example.handle
    (mkConn (wire ["GET /missing HTTP/1.1"; "host: example.com"; ""]
             ++ wire ["GET / HTTP/1.1"; "host: example.com"; ""]) EOF)
  = prepend
      (Write Example.world
         (handleNotFound Util.FormatTime Example.world zeroResponse
            (Some (Example.request "/missing" false))))
      (Example.handle
         (mkConn (wire ["GET / HTTP/1.1"; "host: example.com"; ""]) EOF)).
Proof.
  apply (keep_alive_composes Util.CanonicalHeaderKey Util.FormatTime
           Util.MIMETypeByExtension Example.server Example.worlds
           (mkConn (wire ["GET /missing HTTP/1.1"; "host: example.com"; ""]
                    ++ wire ["GET / HTTP/1.1"; "host: example.com"; ""]) EOF)
           (mkConn (wire ["GET / HTTP/1.1"; "host: example.com"; ""]) EOF)
           (mkReadResult (Some (Example.request "/missing" false)) false None)
           (Example.request "/missing" false)).
  - reflexivity.
  - vm_compute; reflexivity.
  - reflexivity.
  - vm_compute; reflexivity.
Defined.

(** The first turn without a request. When the read deadline cannot be set
    the handler closes the connection without reading or writing anything.
    On a connection that delivers no byte it writes nothing when the read
    ends in end of stream or in a timeout, and the 400 response when the
    read ends in any other error. *)
Theorem first_turn_without_request canon fmt mime (s : Server)
    (ws : nat -> World) :
  (forall conn,
     deadlineArmed (ws 0%nat) = false ->
     handleClientConnections canon fmt mime s ws conn = Returned "") /\
  (forall e,
     deadlineArmed (ws 0%nat) = true ->
     handleClientConnections canon fmt mime s ws (mkConn "" e)
     = Returned (if is_EOF e || is_Timeout e then ""
                 else badRequestBytes fmt (ws 0%nat) None)).
Proof.
  split.
  - intros conn Hd. unfold handleClientConnections. cbn [serve].
    unfold serveTurn. now rewrite Hd.
  - intros e Hd. unfold handleClientConnections. cbn [serve].
    destruct (turn_on_error canon fmt mime s (ws 0%nat) (NewReader (mkConn "" e))
                (NewReader (mkConn "" e))
                (mkReadResult None true (Some e)) e Hd) as [_ Ht];
      [reflexivity|reflexivity|].
    rewrite Ht. cbn [rr_noReq]. rewrite append_nil_l, andb_true_r.
    now destruct (is_EOF e).
Qed.

Lemma serve_responses canon fmt mime (s : Server) (ws : nat -> World)
    (fuel k : nat) (br : Reader) (out : string) :
  serve canon fmt mime fuel s ws k br out <> OutOfFuel ->
  exists rs,
    writtenBy (serve canon fmt mime fuel s ws k br out) = out ++ writeResponses rs /\
    forallb knownResponse rs = true /\
    (forall i wr, rs !! i = Some wr -> fst wr = ws (k + i)%nat) /\
    (forall front last, rs = (front ++ [last])%list ->
       Forall (fun wr => StatusCode (snd wr) <> statusBadRequest /\
                         ResHeaders (snd wr) !! "Connection" = None) front).
Proof.
  revert k br out. induction fuel as [|fuel IH]; intros k br out;
    [intros H; now elim H|].
  cbn [serve].
  destruct (serveTurn canon fmt mime s (ws k) br) as [[o|o br']|msg] eqn:Ht.
  - intros _. apply turn_written in Ht. cbn [writtenBy].
    destruct Ht as [->|(res & -> & Hk)].
    + exists []. repeat split; try easy.
      intros front last E. now destruct front.
    + exists [(ws k, res)]. unfold writeResponses. cbn [map writeAll fst snd forallb].
      rewrite append_nil_r, Hk. repeat split.
      * intros [|i] wr E; [|discriminate]. injection E as <-.
        now rewrite Nat.add_0_r.
      * intros front last E. destruct front as [|x [|y front]]; [constructor| |];
          discriminate.
  - intros Hne. apply turn_written in Ht. destruct Ht as (res & -> & Hk & Hn & Hc).
    destruct (IH (S k) br' (out ++ Write (ws k) res) Hne) as (rs & Hw & Hknown & Hhost & Hlast).
    exists ((ws k, res) :: rs). rewrite Hw. unfold writeResponses.
    cbn [map writeAll fst snd forallb]. rewrite append_assoc, Hk, Hknown.
    repeat split.
    + intros [|i] wr E.
      * injection E as <-. now rewrite Nat.add_0_r.
      * rewrite Nat.add_succ_r. now apply Hhost.
    + intros front last E. destruct front as [|x front]; [constructor|].
      injection E as <- E. constructor; [now split|]. now apply (Hlast front last).
  - intros _. exists []. cbn [writtenBy]. unfold writeResponses. cbn [map writeAll].
    rewrite append_nil_r. repeat split; try easy.
    intros front last E. now destruct front.
Qed.

(** Everything the handler writes on a connection is a sequence of whole
    responses of the server, each with the protocol version [HTTP/1.1] and
    the status 200, 400 or 404, the [i]-th built and written on the host of
    the [i]-th turn. Every response but the last is a 200 or a 404 without
    [Connection] header: a 400, or an answer that announces the close, ends
    the output. *)
Theorem handler_writes_whole_responses canon fmt mime (s : Server)
    (ws : nat -> World) (conn : Conn) :
  exists rs,
    writtenBy (handleClientConnections canon fmt mime s ws conn) = writeResponses rs /\
    forallb knownResponse rs = true /\
    (forall i wr, rs !! i = Some wr -> fst wr = ws i) /\
    (forall front last, rs = (front ++ [last])%list ->
       Forall (fun wr => StatusCode (snd wr) <> statusBadRequest /\
                         ResHeaders (snd wr) !! "Connection" = None) front).
Proof.
  destruct (serve_responses canon fmt mime s ws
              (S (List.length (pending (NewReader conn)))) 0 (NewReader conn) "")
    as (rs & Hw & Hk & Hh & Hl).
  - apply handleClientConnections_returns.
  - exists rs. rewrite append_nil_l in Hw. auto.
Qed.

(** * The fields of a request line *)

Lemma Cut_spec (s : string) (c : ascii) :
  match Cut s c with
  | None => Count s c = 0%nat
  | Some (a, b) =>
      s = a ++ String c b /\ Contains a c = false /\ Count s c = S (Count b c)
  end.
Proof.
  induction s as [|x s IH]; [reflexivity|].
  cbn [Cut Count]. destruct (Ascii.eqb x c) eqn:E.
  - apply Ascii.eqb_eq in E. subst x. rewrite append_nil_l. auto.
  - destruct (Cut s c) as [[a b]|].
    + destruct IH as (Hs & Ha & Hn). rewrite append_cons, <- Hs. cbn [Contains].
      rewrite E. auto.
    + exact IH.
Qed.

(** [parseRequestLine] fails exactly on a line with fewer than two spaces,
    and its message shows the line. On any other line it returns three
    fields: the text before the first space, the text between the first two
    spaces, and all the rest, further spaces included; the fields joined by
    single spaces are the line. *)
Theorem parseRequestLine_fields (line : string) :
  ((Count line " " < 2)%nat ->
   parseRequestLine line
   = ([], Some (Errorf ("could not parse the request line, got fields ["
                          ++ line ++ "]")))) /\
  ((2 <= Count line " ")%nat ->
   exists x y z,
     parseRequestLine line = ([x; y; z], None) /\
     line = x ++ " " ++ y ++ " " ++ z /\
     Contains x " " = false /\ Contains y " " = false).
Proof.
  unfold parseRequestLine. cbn [SplitN].
  pose proof (Cut_spec line " ") as H1.
  destruct (Cut line " ") as [[a b]|].
  - destruct H1 as (Hline & Ha & Hn).
    pose proof (Cut_spec b " ") as H2.
    destruct (Cut b " ") as [[a' b']|].
    + destruct H2 as (Hb & Ha' & Hn'). split; [lia|]. intros _.
      exists a, a', b'. cbn [List.length Nat.eqb negb].
      split; [reflexivity|]. split; [|auto]. rewrite Hline, Hb. reflexivity.
    + split; [|lia]. intros _. cbn [List.length Nat.eqb negb].
      unfold Join. cbn [String.concat]. rewrite Hline. reflexivity.
  - split; [|lia]. intros _. cbn [List.length Nat.eqb negb].
    unfold Join. cbn [String.concat]. reflexivity.
Qed.

(** * One request, then silence *)

(** A connection that delivers one well-formed request and then ends, by end
    of stream or by an expired read deadline, gets the answer to that
    request and nothing else, and the handler returns: the request is
    parsed with its target and its header lines, and whenever the resolver
    builds a response for it, the bytes of that response are all that is
    written. *)
Theorem one_request_one_response canon fmt mime (s : Server) (ws : nat -> World)
    (url : string) (hs : list string) (e : error) :
  HasPrefix url "/" = true -> Contains url " " = false ->
  Forall (fun l => l <> "" /\ Contains l ":" = true) hs ->
  Forall (fun l => shortLine l = true) (("GET " ++ url ++ " HTTP/1.1") :: hs) ->
  existsb (fun l => String.eqb (canon (headerName l)) "Host") hs = true ->
  deadlineArmed (ws 0%nat) = true ->
  is_EOF e || is_Timeout e = true ->
  exists req,
    URL req = url /\ Headers req = fold_left (addHeader canon) hs ∅ /\
    forall res,
      handleGoodRequest fmt mime (ws 0%nat) s req = Ret res ->
      handleClientConnections canon fmt mime s ws
        (mkConn (wire (("GET " ++ url ++ " HTTP/1.1") :: hs ++ [""])) e)
      = Returned (Write (ws 0%nat) res).
Proof.
  intros Hu Hsp Hhs Hshort Hhost Hd He.
  destruct (readRequest_well_formed canon url hs [] e Hu Hsp Hhs Hhost)
    as (req & Hr & Hurl & Hhdrs).
  exists req. split; [exact Hurl|]. split; [exact Hhdrs|]. intros res Hg.
  assert (Hnew : NewReader (mkConn (wire (("GET " ++ url ++ " HTTP/1.1") :: hs ++ [""])) e)
                 = mkReader (("GET " ++ url ++ " HTTP/1.1") :: hs ++ [""]) e).
  { unfold NewReader. cbn [incoming ending].
    rewrite <- (append_nil_r (wire _)), scanLines_wire.
    - cbn [scanLines]. now rewrite app_nil_r.
    - rewrite app_comm_cons. apply Forall_app. split; [exact Hshort|].
      constructor; [reflexivity|constructor]. }
  unfold handleClientConnections. rewrite Hnew. cbn [pending List.length serve].
  rewrite (turn_on_request canon fmt mime s _ _ _ _ _ _ Hd Hr eq_refl Hg).
  destruct (Close req); [now rewrite append_nil_l|].
  rewrite length_app. cbn [List.length]. rewrite Nat.add_1_r. cbn [serve].
  rewrite append_nil_l. unfold serveTurn.
  destruct (deadlineArmed (ws 1%nat)); cbn [negb]; [|now rewrite append_nil_r].
  rewrite readRequest_nothing by reflexivity. cbn [bind rr_err rr_noReq final].
  destruct e; try discriminate; cbn [is_EOF is_Timeout]; now rewrite append_nil_r.
Qed.

Lemma one_request_one_response_witness :
  exists req,
    URL req = "/missing" /\
    forall res,
      handleGoodRequest Util.FormatTime Util.MIMETypeByExtension
        (Example.worlds 0%nat) Example.server req = Ret res ->
      Example.handle
        (mkConn (wire (("GET " ++ "/missing" ++ " HTTP/1.1")
                         :: ["host: example.com"] ++ [""])) ErrTimeout)
      = Returned (Write (Example.worlds 0%nat) res).
Proof.
  destruct (one_request_one_response Util.CanonicalHeaderKey Util.FormatTime
              Util.MIMETypeByExtension Example.server Example.worlds
              "/missing" ["host: example.com"] ErrTimeout)
    as (req & Hurl & _ & Hall).
  - reflexivity.
  - reflexivity.
  - repeat constructor; discriminate.
  - repeat constructor.
  - vm_compute; reflexivity.
  - reflexivity.
  - reflexivity.
  - exists req. split; [exact Hurl|exact Hall].
Defined.

(** * The responses, byte for byte *)

Lemma sortedKeys_bad (d c : string) :
  sortedKeys (<["Connection" := c]> (<["Date" := d]> ∅)) = ["Connection"; "Date"].
Proof. vm_compute. reflexivity. Qed.

Lemma sortedKeys_date (d : string) :
  sortedKeys (<["Date" := d]> ∅) = ["Date"].
Proof. vm_compute. reflexivity. Qed.

Lemma sortedKeys_ok (d l t m : string) :
  sortedKeys (<["Content-Length" := l]> (<["Content-Type" := t]>
                (<["Last-Modified" := m]> (<["Date" := d]> ∅))))
  = ["Content-Length"; "Content-Type"; "Date"; "Last-Modified"].
Proof. vm_compute. reflexivity. Qed.

Lemma sortedKeys_ok_close (d l t m c : string) :
  sortedKeys (<["Content-Length" := l]> (<["Content-Type" := t]>
                (<["Last-Modified" := m]>
                   (<["Connection" := c]> (<["Date" := d]> ∅)))))
  = ["Connection"; "Content-Length"; "Content-Type"; "Date"; "Last-Modified"].
Proof. vm_compute. reflexivity. Qed.

(** The bytes of the 400 response, whatever response value and request it
    is built from. *)
Lemma badRequest_wire fmt (w : World) (res0 : Response) (req : option Request) :
  Write w (handleBadRequest fmt w res0 req)
  = "HTTP/1.1 400 Bad Request" ++ CRLF ++ "Connection: close" ++ CRLF
    ++ "Date: " ++ fmt (now w) ++ CRLF ++ CRLF.
Proof.
  unfold Write, writeStatusLine, writeHeaders.
  unfold handleBadRequest, init, writeBody. cbn [ResProto StatusCode ResHeaders FilePath].
  assert (Hm : <["Connection" := "close"]>
                 (match req with
                  | Some r => if Close r
                              then <["Connection" := "close"]>
                                     (<["Date" := fmt (now w)]> (∅ : gmap string string))
                              else <["Date" := fmt (now w)]> ∅
                  | None => <["Date" := fmt (now w)]> ∅
                  end)
               = <["Connection" := "close"]> (<["Date" := fmt (now w)]> ∅)).
  { destruct req as [r|]; [destruct (Close r)|]; reflexivity. }
  rewrite Hm, sortedKeys_bad. cbn [map writeAll String.eqb]. unfold headerLine, mapGet.
  rewrite lookup_insert_eq, lookup_insert_ne, lookup_insert_eq by discriminate.
  cbn [default]. rewrite !append_assoc, !append_nil_r. reflexivity.
Qed.

(** The bytes of an answer to a parsed request. *)
Lemma goodResponse_wire fmt mime (w : World) (s : Server) (req : Request)
    (res : Response) :
  handleGoodRequest fmt mime w s req = Ret res ->
  let close := if Close req then "Connection: close" ++ CRLF else "" in
  Write w res
  = if StatusCode res =? statusOK
    then "HTTP/1.1 200 OK" ++ CRLF ++ close
         ++ "Content-Length: " ++ mapGet (ResHeaders res) "Content-Length" ++ CRLF
         ++ "Content-Type: " ++ mapGet (ResHeaders res) "Content-Type" ++ CRLF
         ++ "Date: " ++ fmt (now w) ++ CRLF
         ++ "Last-Modified: " ++ mapGet (ResHeaders res) "Last-Modified" ++ CRLF
         ++ CRLF ++ writeBody w res
    else "HTTP/1.1 404 Not Found" ++ CRLF ++ close
         ++ "Date: " ++ fmt (now w) ++ CRLF ++ CRLF.
Proof.
  intros H. cbn zeta. apply handleGoodRequest_inv in H.
  destruct H as (url' & Hu & [[-> _]|(rel & fi & Hrel & Hpre & Hst & Hdir & Hok)]).
  + unfold Write, writeStatusLine, writeHeaders, handleNotFound, init, writeBody.
    cbn [ResProto StatusCode ResHeaders FilePath withURL Close String.eqb].
    change (statusNotFound =? statusOK) with false. cbv iota.
    destruct (Close req).
    * rewrite sortedKeys_bad. cbn [map writeAll]. unfold headerLine, mapGet.
      rewrite lookup_insert_eq, lookup_insert_ne, lookup_insert_eq by discriminate.
      cbn [default]. rewrite !append_assoc, !append_nil_r. reflexivity.
    * rewrite sortedKeys_date. cbn [map writeAll]. unfold headerLine, mapGet.
      rewrite lookup_insert_eq.
      cbn [default]. rewrite !append_assoc, !append_nil_r. reflexivity.
  + cbn zeta in *. set (path := Filepath.JoinPath _) in *. clearbody path.
    apply (handleOK_inv fmt mime w _ _ fi) in Hok; [|exact Hst]. subst res.
    unfold Write, writeStatusLine, writeHeaders, init.
    cbn [ResProto StatusCode ResHeaders FilePath withURL withFilePath Close].
    change (statusOK =? statusOK) with true. cbv iota.
    destruct (Close req).
    * rewrite sortedKeys_ok_close. cbn [map writeAll]. unfold headerLine, mapGet.
      rewrite !lookup_insert_eq.
      rewrite (lookup_insert_ne _ "Content-Length" "Content-Type") by discriminate.
      rewrite !lookup_insert_eq.
      rewrite !(lookup_insert_ne _ _ "Last-Modified") by discriminate.
      rewrite !lookup_insert_eq.
      rewrite !(lookup_insert_ne _ _ "Date") by discriminate.
      rewrite !lookup_insert_eq.
      rewrite !(lookup_insert_ne _ _ "Connection") by discriminate.
      rewrite !lookup_insert_eq.
      cbn [default]. rewrite !append_assoc, ?append_nil_r, ?append_nil_l.
      reflexivity.
    * rewrite sortedKeys_ok. cbn [map writeAll]. unfold headerLine, mapGet.
      rewrite !lookup_insert_eq.
      rewrite (lookup_insert_ne _ "Content-Length" "Content-Type") by discriminate.
      rewrite !lookup_insert_eq.
      rewrite !(lookup_insert_ne _ _ "Last-Modified") by discriminate.
      rewrite !lookup_insert_eq.
      rewrite !(lookup_insert_ne _ _ "Date") by discriminate.
      rewrite !lookup_insert_eq.
      cbn [default]. rewrite !append_assoc, ?append_nil_r, ?append_nil_l.
      reflexivity.
Qed.

(** The bytes of the three responses. The 400 is the same for every failed
    request but for the date. The header lines come in the byte order of
    their names, so [Connection], when present, is the first one and
    [Last-Modified] the last one; the body of a 200 follows the empty
    line. *)
Theorem responses_on_the_wire fmt mime (w : World) (s : Server) :
  (forall req,
     badRequestBytes fmt w req
     = "HTTP/1.1 400 Bad Request" ++ CRLF ++ "Connection: close" ++ CRLF
       ++ "Date: " ++ fmt (now w) ++ CRLF ++ CRLF) /\
  (forall req res,
     handleGoodRequest fmt mime w s req = Ret res ->
     let close := if Close req then "Connection: close" ++ CRLF else "" in
     Write w res
     = if StatusCode res =? statusOK
       then "HTTP/1.1 200 OK" ++ CRLF ++ close
            ++ "Content-Length: " ++ mapGet (ResHeaders res) "Content-Length" ++ CRLF
            ++ "Content-Type: " ++ mapGet (ResHeaders res) "Content-Type" ++ CRLF
            ++ "Date: " ++ fmt (now w) ++ CRLF
            ++ "Last-Modified: " ++ mapGet (ResHeaders res) "Last-Modified" ++ CRLF
            ++ CRLF ++ writeBody w res
       else "HTTP/1.1 404 Not Found" ++ CRLF ++ close
            ++ "Date: " ++ fmt (now w) ++ CRLF ++ CRLF).
Proof.
  split.
  - intros req. apply badRequest_wire.
  - intros req res H. now apply (goodResponse_wire fmt mime w s).
Qed.

(** * The index document is served as HTML *)

Lemma Split_app_sep (a b : string) (c : ascii) :
  Split (a ++ String c b) c = (Split a c ++ Split b c)%list.
Proof.
  induction a as [|x a IH]; [rewrite append_nil_l; cbn [Split];
                              now rewrite Ascii.eqb_refl|].
  rewrite append_cons. cbn [Split]. destruct (Ascii.eqb x c).
  - now rewrite IH.
  - rewrite IH. destruct (Split_nonempty a c) as (p & ps & ->). reflexivity.
Qed.

Lemma concat_snoc (sep last : string) (l : list string) :
  String.concat sep (l ++ [last])
  = match l with
    | [] => last
    | _ => String.concat sep l ++ sep ++ last
    end.
Proof.
  induction l as [|x l IH]; [reflexivity|].
  cbn [app String.concat]. destruct l as [|y l]; [reflexivity|].
  cbn [app] in *. rewrite IH. now rewrite !append_assoc.
Qed.

Lemma Ext_index (dir : string) : Filepath.Ext (dir ++ "/index.html") = ".html".
Proof.
  induction dir as [|a dir IH]; [reflexivity|].
  rewrite append_cons. cbn [Filepath.Ext].
  rewrite Contains_app.
  replace (Contains "/index.html" Filepath.Separator) with true by reflexivity.
  now rewrite orb_true_r.
Qed.

Lemma Clean_index (x : string) :
  Filepath.Clean (x ++ "/index.html") = "index.html"
  \/ exists y, Filepath.Clean (x ++ "/index.html") = y ++ "/index.html".
Proof.
  unfold Filepath.Clean.
  destruct (x ++ "/index.html") as [|c r] eqn:E; [destruct x; discriminate|].
  rewrite <- E. change "/index.html" with (String Filepath.Separator "index.html").
  rewrite Split_app_sep, fold_left_app.
  set (stack := fold_left _ (Split x _) []).
  change (Split "index.html" Filepath.Separator) with ["index.html"].
  cbn [fold_left]. change (Filepath.cleanStep _ stack "index.html") with ("index.html" :: stack).
  cbn [rev]. unfold Join. rewrite concat_snoc.
  destruct (Ascii.eqb c Filepath.Separator).
  - right. destruct (rev stack) as [|e es].
    + now exists "".
    + exists (String Filepath.Separator (String.concat "/" (e :: es))).
      now rewrite append_cons.
  - destruct (rev stack) as [|e es]; [now left|]. right.
    exists (String.concat "/" (e :: es)).
    destruct (String.eqb _ "") eqn:Eq; [|reflexivity].
    apply String.eqb_eq in Eq.
    destruct (String.concat "/" (e :: es)); discriminate.
Qed.

(** A 200 for a target that ends in a slash has the content type of the
    extension [.html], whatever the directory and the document root are:
    the file served is the [index.html] of the directory. *)
Theorem index_document_is_html fmt mime (w : World) (s : Server)
    (req : Request) (res : Response) (dir : string) :
  URL req = dir ++ "/" ->
  handleGoodRequest fmt mime w s req = Ret res ->
  StatusCode res = statusOK ->
  ResHeaders res !! "Content-Type" = Some (mime ".html") /\
  (FilePath res = "index.html" \/ exists y, FilePath res = y ++ "/index.html").
Proof.
  intros Hurl H Hcode. apply handleGoodRequest_inv in H.
  destruct H as (url' & Hu & [[-> _]|(rel & fi & Hrel & Hpre & Hst & Hdir & Hok)]);
    [discriminate|].
  rewrite Hurl in Hu. change (dir ++ "/") with (dir ++ String "/" "") in Hu.
  rewrite indexTarget_snoc in Hu. cbn [Ascii.eqb Bool.eqb] in Hu.
  injection Hu as <-. rewrite append_assoc in *.
  change (String "/" "" ++ "index.html") with "/index.html" in *.
  cbn zeta in *.
  assert (Hpath : Filepath.JoinPath [mapGet (VirtualHosts s) (Host req);
                                     dir ++ "/index.html"] = "index.html"
                  \/ exists y, Filepath.JoinPath [mapGet (VirtualHosts s) (Host req);
                                             dir ++ "/index.html"]
                               = y ++ "/index.html").
  { cbn [Filepath.JoinPath]. destruct (String.eqb _ "").
    - destruct (String.eqb (dir ++ "/index.html") "") eqn:E.
      + apply String.eqb_eq in E. destruct dir; discriminate.
      + unfold Join. cbn [String.concat]. apply Clean_index.
    - unfold Join. cbn [String.concat]. rewrite <- !append_assoc.
      apply Clean_index. }
  set (path := Filepath.JoinPath _) in *. clearbody path.
  apply (handleOK_inv fmt mime w _ _ fi) in Hok; [|exact Hst]. subst res.
  cbn [ResHeaders FilePath]. split; [|exact Hpath].
  rewrite lookup_insert_ne, lookup_insert_eq by discriminate.
  destruct Hpath as [->|[y ->]]; [reflexivity|]. now rewrite Ext_index.
Qed.

Lemma index_document_is_html_witness :
  ResHeaders
    (mkResponse "HTTP/1.1" 200 "OK"
       (<["Content-Length" := "5"]>
          (<["Content-Type" := "text/html; charset=utf-8"]>
             (<["Last-Modified" := "1000"]> (<["Date" := "2000"]> ∅))))
       (Some (Example.request "/index.html" false))
       "/srv/www/index.html") !! "Content-Type"
  = Some (Util.MIMETypeByExtension ".html").
Proof.
  apply (index_document_is_html Util.FormatTime Util.MIMETypeByExtension
           Example.world Example.server (Example.request "/" false) _ "").
  - reflexivity.
  - vm_compute; reflexivity.
  - reflexivity.
Defined.

(** * The handler on a parser or resolver panic *)

Lemma emptyTarget_fields (pend : list string) :
  emptyTarget pend = true ->
  exists line rest v, pend = line :: rest /\ SplitN line " " 3 = ["GET"; ""; v].
Proof.
  destruct pend as [|line rest]; [discriminate|]. cbn [emptyTarget]. unfold fieldsOf.
  intros H. apply andb_true_iff in H as [H H2]. apply andb_true_iff in H as [H0 H1].
  destruct (SplitN line " " 3) as [|x [|y [|z [|t l]]]] eqn:E; try discriminate.
  cbn [nth] in *. apply String.eqb_eq in H1, H2. subst. eauto.
Qed.

Lemma readRequest_emptyTarget canon (br : Reader) :
  emptyTarget (pending br) = true ->
  readRequest canon br = Panic "index out of range".
Proof.
  intros H. destruct (emptyTarget_fields _ H) as (line & rest & v & Hp & Hs).
  destruct br as [pend fin]. cbn [pending] in Hp. subst pend.
  now apply readRequest_empty_target with (v := v).
Qed.

(** A request line with an empty target has a reason for a 400: its target
    does not begin with a slash. *)
Lemma emptyTarget_badRequestReason canon (pend : list string) :
  emptyTarget pend = true -> badRequestReason canon pend = true.
Proof.
  intros H. destruct (emptyTarget_fields _ H) as (line & rest & v & -> & Hs).
  cbn [badRequestReason].
  assert (Hb : badTarget line = true)
    by (unfold badTarget, fieldsOf; now rewrite Hs).
  rewrite Hb. destruct (notThreeFields line), (badMethod line); reflexivity.
Qed.

Lemma emptyTarget_pending (pend : list string) :
  emptyTarget pend = true -> pend <> [].
Proof. now destruct pend. Qed.

Section HandlerPanics.

Variable canon : string -> string.
Variable fmt : Time -> string.
Variable mime : string -> string.
Variable s : Server.

Local Abbreviation turn := (serveTurn canon fmt mime s).
Local Abbreviation loop fuel := (serve canon fmt mime fuel s).

Lemma turn_emptyTarget (w : World) (br : Reader) :
  deadlineArmed w = true -> emptyTarget (pending br) = true ->
  turn w br = Panic "index out of range".
Proof.
  intros Hd H. unfold serveTurn. now rewrite Hd, (readRequest_emptyTarget canon br H).
Qed.

Lemma turn_on_panic (w : World) (br br' : Reader) (rr : ReadResult)
    (req : Request) (msg : string) :
  deadlineArmed w = true ->
  readRequest canon br = Ret (rr, br') ->
  rr_req rr = Some req ->
  handleGoodRequest fmt mime w s req = Panic msg ->
  turn w br = Panic msg.
Proof.
  intros Hd Hr Hq Hg. unfold serveTurn. rewrite Hd, Hr. cbn [negb bind].
  apply readRequest_cases in Hr.
  destruct Hr; cbn [rr_err rr_req] in *; try discriminate.
  injection Hq as <-. now rewrite Hg.
Qed.

(** The loop after one turn. *)
Lemma serve_turn (w : World) (ws : nat -> World) (fuel k : nat) (br : Reader)
    (out : string) :
  ws k = w ->
  loop (S fuel) ws k br out
  = match turn w br with
    | Panic msg => Crashed out msg
    | Ret (Closed o) => Returned (out ++ o)
    | Ret (KeepAlive o br') => loop fuel ws (S k) br' (out ++ o)
    end.
Proof. intros <-. reflexivity. Qed.

(** The turn after a failed read or parse, on the bytes. *)
Lemma turn_on_error_wire (w : World) (br br' : Reader) (rr : ReadResult)
    (e : error) :
  deadlineArmed w = true ->
  readRequest canon br = Ret (rr, br') ->
  rr_err rr = Some e ->
  turn w br =
    Ret (Closed (if is_EOF e then ""
                 else if is_Timeout e && rr_noReq rr then ""
                 else "HTTP/1.1 400 Bad Request" ++ CRLF ++ "Connection: close" ++ CRLF
                      ++ "Date: " ++ fmt (now w) ++ CRLF ++ CRLF)).
Proof.
  intros Hd Hr He.
  destruct (turn_on_error canon fmt mime s w br br' rr e Hd Hr He) as [_ Ht].
  rewrite Ht. unfold badRequestBytes. now rewrite badRequest_wire.
Qed.

End HandlerPanics.

(** * The claims on the handler *)

(** C3. When the read deadline expires before any byte of a new request
    was read, the handler writes nothing and closes. When it expires with a
    request in progress (lines were read, a first line cut short included,
    and the empty line that ends the request was not), the handler writes
    the 400 response, whose bytes are given, and closes, unless the request
    line read so far has an empty target, as [GET  HTTP/1.1] has: then
    [readRequest] reads byte 0 of the empty target, the handler panics, and
    no byte is written. *)
Theorem C3_deadline_expiry canon fmt mime (s : Server) (w : World) (br : Reader) :
  deadlineArmed w = true ->
  final br = ErrTimeout ->
  let bad400 := "HTTP/1.1 400 Bad Request" ++ CRLF ++ "Connection: close" ++ CRLF
                ++ "Date: " ++ fmt (now w) ++ CRLF ++ CRLF in
  (pending br = [] -> serveTurn canon fmt mime s w br = Ret (Closed "")) /\
  (pending br <> [] ->
   emptyTarget (pending br) = false ->
   endsEarly (pending br) = true ->
   serveTurn canon fmt mime s w br = Ret (Closed bad400) /\
   forall fuel ws k out,
     ws k = w ->
     serve canon fmt mime (S fuel) s ws k br out = Returned (out ++ bad400)) /\
  (emptyTarget (pending br) = true ->
   pending br <> [] /\
   serveTurn canon fmt mime s w br = Panic "index out of range" /\
   forall fuel ws k out,
     ws k = w ->
     serve canon fmt mime (S fuel) s ws k br out = Crashed out "index out of range") /\
  bad400 <> "" /\
  (forall conn, br = NewReader conn -> (pending br = [] <-> incoming conn = "")).
Proof.
  intros Hd Hf bad400.
  split; [|split; [|split; [|split]]].
  - intros Hp.
    rewrite (turn_on_error_wire canon fmt mime s w br br _ ErrTimeout Hd
               (readRequest_nothing canon br Hp)).
    + reflexivity.
    + cbn [rr_err]. now rewrite Hf.
  - intros Hp Hsafe Hearly.
    destruct (readRequest_outcome canon br Hsafe) as (rr & br' & Hr & H).
    rewrite Hearly in H.
    assert (Ht : serveTurn canon fmt mime s w br = Ret (Closed bad400)).
    { assert (Hno : rr_noReq rr = false).
      { pose proof (readRequest_cases canon br rr br' Hr) as Hc.
        destruct Hc as [Hp'|line rest e' br2 Hp' Hle Hfin He
                       |line rest url hdrs hostVal rest' Hp' Hs Hu Hh Hlt Hhost];
          [contradiction|reflexivity|reflexivity]. }
      destruct (badRequestReason canon (pending br)).
      - destruct H as [[msg He] _].
        rewrite (turn_on_error_wire canon fmt mime s w br br' rr _ Hd Hr He).
        reflexivity.
      - destruct H as [He _].
        rewrite (turn_on_error_wire canon fmt mime s w br br' rr _ Hd Hr He).
        rewrite Hf, Hno. reflexivity. }
    split; [exact Ht|]. intros fuel ws k out Hw.
    now rewrite (serve_turn canon fmt mime s w ws fuel k br out Hw), Ht.
  - intros He. split; [now apply emptyTarget_pending|].
    pose proof (turn_emptyTarget canon fmt mime s w br Hd He) as Ht.
    split; [exact Ht|]. intros fuel ws k out Hw.
    now rewrite (serve_turn canon fmt mime s w ws fuel k br out Hw), Ht.
  - subst bad400. rewrite append_cons. discriminate.
  - intros conn ->. apply NewReader_nothing.
Qed.

(** The request line [GET  HTTP/1.1] cut short by the deadline: the handler
    panics and nothing is written. *)
Lemma C3_deadline_expiry_witness :
  Example.handle (mkConn "GET  HTTP/1.1" ErrTimeout)
  = Crashed "" "index out of range".
Proof.
  destruct (C3_deadline_expiry Util.CanonicalHeaderKey Util.FormatTime
              Util.MIMETypeByExtension Example.server Example.world
              (NewReader (mkConn "GET  HTTP/1.1" ErrTimeout)) eq_refl eq_refl)
    as (_ & _ & H & _).
  destruct (H eq_refl) as (_ & _ & Hrun).
  exact (Hrun _ Example.worlds 0%nat "" eq_refl).
Defined.

(** C6. After a parse failure [readRequest] reports (an error that is
    neither end of stream nor a timeout) the handler writes the 400
    response, whose bytes are given, and closes the connection, which ends
    its loop; it does so for every request that has one of the six reasons
    for a 400 and a non-empty target. A request line with an empty target,
    as [GET  HTTP/1.1] has, is malformed too (its target does not begin
    with a slash), but [readRequest] reads byte 0 of the target before it
    compares it: the handler panics and writes no response. The 400
    response has status 400 and reason "Bad Request", carries
    [Connection: close] whatever it is built from, and has no body. *)
Theorem C6_bad_request_response canon fmt mime (s : Server) (w : World)
    (br : Reader) :
  deadlineArmed w = true ->
  let res := handleBadRequest fmt w zeroResponse None in
  let bad400 := "HTTP/1.1 400 Bad Request" ++ CRLF ++ "Connection: close" ++ CRLF
                ++ "Date: " ++ fmt (now w) ++ CRLF ++ CRLF in
  (emptyTarget (pending br) = false ->
   badRequestReason canon (pending br) = true ->
   serveTurn canon fmt mime s w br = Ret (Closed bad400) /\
   forall fuel ws k out,
     ws k = w ->
     serve canon fmt mime (S fuel) s ws k br out = Returned (out ++ bad400)) /\
  (forall rr br' e,
      readRequest canon br = Ret (rr, br') ->
      rr_err rr = Some e ->
      is_EOF e = false ->
      is_Timeout e = false ->
      rr_req rr = None /\
      serveTurn canon fmt mime s w br = Ret (Closed bad400)) /\
  (emptyTarget (pending br) = true ->
   badRequestReason canon (pending br) = true /\
   serveTurn canon fmt mime s w br = Panic "index out of range" /\
   forall fuel ws k out,
     ws k = w ->
     serve canon fmt mime (S fuel) s ws k br out = Crashed out "index out of range") /\
  Write w res = bad400 /\
  StatusCode res = 400 /\ StatusText res = "Bad Request" /\
  FilePath res = "" /\ writeBody w res = "" /\
  (forall res0 req,
      ResHeaders (handleBadRequest fmt w res0 req) !! "Connection" = Some "close" /\
      Write w (handleBadRequest fmt w res0 req) = bad400).
Proof.
  intros Hd res bad400.
  assert (Hfail : forall rr br' e,
             readRequest canon br = Ret (rr, br') ->
             rr_err rr = Some e -> is_EOF e = false -> is_Timeout e = false ->
             rr_req rr = None /\
             serveTurn canon fmt mime s w br = Ret (Closed bad400)).
  { intros rr br' e Hr He Heof Hto.
    destruct (turn_on_error canon fmt mime s w br br' rr e Hd Hr He) as [Hq _].
    split; [exact Hq|].
    rewrite (turn_on_error_wire canon fmt mime s w br br' rr e Hd Hr He).
    now rewrite Heof, Hto. }
  destruct (handleBadRequest_fields fmt w zeroResponse None)
    as (H1 & H2 & H3 & H4 & H5 & H6).
  split; [|split; [exact Hfail|split]].
  - intros Hsafe Hbad.
    destruct (readRequest_outcome canon br Hsafe) as (rr & br' & Hr & H).
    rewrite Hbad in H. destruct H as [[msg He] _].
    destruct (Hfail rr br' (Errorf msg) Hr He eq_refl eq_refl) as [_ Ht].
    split; [exact Ht|]. intros fuel ws k out Hw.
    now rewrite (serve_turn canon fmt mime s w ws fuel k br out Hw), Ht.
  - intros He. split; [now apply emptyTarget_badRequestReason|].
    pose proof (turn_emptyTarget canon fmt mime s w br Hd He) as Ht.
    split; [exact Ht|]. intros fuel ws k out Hw.
    now rewrite (serve_turn canon fmt mime s w ws fuel k br out Hw), Ht.
  - split; [apply badRequest_wire|].
    repeat (split; [assumption|]).
    intros res0 req. split; [|apply badRequest_wire].
    apply (handleBadRequest_fields fmt w res0 req).
Qed.

(** The malformed request line [GET  HTTP/1.1], in a request that is
    complete: the handler panics and no 400 is written. *)
Lemma C6_bad_request_witness :
  Example.handle
    (mkConn ("GET  HTTP/1.1" ++ CRLF ++ "Host: example.com" ++ CRLF ++ CRLF) EOF)
  = Crashed "" "index out of range".
Proof.
  destruct (C6_bad_request_response Util.CanonicalHeaderKey Util.FormatTime
              Util.MIMETypeByExtension Example.server Example.world
              (NewReader (mkConn ("GET  HTTP/1.1" ++ CRLF ++ "Host: example.com"
                                  ++ CRLF ++ CRLF) EOF)) eq_refl)
    as (_ & _ & H & _).
  destruct (H eq_refl) as (_ & _ & Hrun).
  exact (Hrun _ Example.worlds 0%nat "" eq_refl).
Defined.

(** C7. After a valid request for which the resolver builds a response:
    when the [Connection] header is absent or differs from [close] the
    handler writes the response and goes round its loop again, reading the
    next request from the rest of the same connection; when it equals
    [close] the bytes written have the line [Connection: close] right
    after the status line and the handler closes the connection after
    writing them. The bytes are given in both cases. A response is built
    whenever [os.Stat] fails with "not exist" only. When [os.Stat] fails in
    another way on a path inside the document root, as it does for
    [/index.html/x] where [index.html] is a file, the resolver reads the nil
    file information: the handler panics, and it neither goes round again
    nor closes the connection after a response. *)
Theorem C7_persistent_unless_close canon fmt mime (s : Server) (w : World)
    (br br' : Reader) (rr : ReadResult) (req : Request) :
  deadlineArmed w = true ->
  readRequest canon br = Ret (rr, br') ->
  rr_req rr = Some req ->
  let close := if Close req then "Connection: close" ++ CRLF else "" in
  (Close req = true <-> Headers req !! "Connection" = Some "close") /\
  (forall res,
      handleGoodRequest fmt mime w s req = Ret res ->
      Write w res
      = (if StatusCode res =? statusOK
         then "HTTP/1.1 200 OK" ++ CRLF ++ close
              ++ "Content-Length: " ++ mapGet (ResHeaders res) "Content-Length" ++ CRLF
              ++ "Content-Type: " ++ mapGet (ResHeaders res) "Content-Type" ++ CRLF
              ++ "Date: " ++ fmt (now w) ++ CRLF
              ++ "Last-Modified: " ++ mapGet (ResHeaders res) "Last-Modified" ++ CRLF
              ++ CRLF ++ writeBody w res
         else "HTTP/1.1 404 Not Found" ++ CRLF ++ close
              ++ "Date: " ++ fmt (now w) ++ CRLF ++ CRLF) /\
      serveTurn canon fmt mime s w br
      = Ret (if Close req then Closed (Write w res) else KeepAlive (Write w res) br') /\
      forall fuel ws k out,
        ws k = w ->
        serve canon fmt mime (S fuel) s ws k br out
        = if Close req then Returned (out ++ Write w res)
          else serve canon fmt mime fuel s ws (S k) br' (out ++ Write w res)) /\
  ((forall path msg, stat w path <> StatError msg) ->
   exists res, handleGoodRequest fmt mime w s req = Ret res) /\
  (forall url' rel msg,
      indexTarget (URL req) = Ret url' ->
      let docroot := mapGet (VirtualHosts s) (Host req) in
      let path := Filepath.JoinPath [docroot; url'] in
      Filepath.Rel docroot path = Some rel ->
      HasPrefix rel ".." = false ->
      stat w path = StatError msg ->
      serveTurn canon fmt mime s w br = Panic "nil pointer dereference" /\
      forall fuel ws k out,
        ws k = w ->
        serve canon fmt mime (S fuel) s ws k br out
        = Crashed out "nil pointer dereference").
Proof.
  intros Hd Hr Hq close.
  assert (Hparsed : HasPrefix (URL req) "/" = true /\
                    (Close req = true <-> Headers req !! "Connection" = Some "close")).
  { pose proof (readRequest_cases canon br rr br' Hr) as Hc.
    destruct Hc as [Hp|line rest e br2 Hp Hle Hfin H
                   |line rest url hdrs hostVal rest' Hp Hs Hu Hh Hlt Hhost];
      cbn [rr_req] in Hq; try discriminate.
    injection Hq as <-. cbn [Close Headers URL]. split; [exact Hu|].
    destruct (hdrs !! "Connection") as [v|]; [|split; discriminate].
    rewrite String.eqb_eq. split; congruence. }
  destruct Hparsed as [Hvalid Hclose].
  split; [exact Hclose|]. split; [|split].
  - intros res Hg.
    pose proof (turn_on_request canon fmt mime s w br br' rr req res Hd Hr Hq Hg) as Ht.
    split; [exact (goodResponse_wire fmt mime w s req res Hg)|].
    split; [exact Ht|]. intros fuel ws k out Hw.
    rewrite (serve_turn canon fmt mime s w ws fuel k br out Hw), Ht.
    now destruct (Close req).
  - intros Hstat. now apply handleGoodRequest_returns.
  - intros url' rel msg Hu docroot path Hrel Hpre Hst.
    assert (Hg : handleGoodRequest fmt mime w s req = Panic "nil pointer dereference").
    { unfold handleGoodRequest. rewrite Hu. cbn [bind].
      rewrite (resolve_inside fmt mime w s (withURL req url') rel Hrel Hpre).
      cbn [withURL Host URL]. fold docroot. fold path. now rewrite Hst. }
    pose proof (turn_on_panic canon fmt mime s w br br' rr req _ Hd Hr Hq Hg) as Ht.
    split; [exact Ht|]. intros fuel ws k out Hw.
    now rewrite (serve_turn canon fmt mime s w ws fuel k br out Hw), Ht.
Qed.

(** The valid request for [/index.html/x] on the host where [index.html] is
    a file: the handler panics and nothing is written. *)
Lemma C7_persistent_witness :
  Example.handle
    (mkConn ("GET /index.html/x HTTP/1.1" ++ CRLF ++ "Host: example.com" ++ CRLF
             ++ CRLF) EOF)
  = Crashed "" "nil pointer dereference".
Proof.
  assert (Hr : readRequest Util.CanonicalHeaderKey
                 (NewReader (mkConn ("GET /index.html/x HTTP/1.1" ++ CRLF
                                     ++ "Host: example.com" ++ CRLF ++ CRLF) EOF))
               = Ret (mkReadResult (Some (Example.request "/index.html/x" false))
                                   false None,
                      mkReader [] EOF))
    by (vm_compute; reflexivity).
  destruct (C7_persistent_unless_close Util.CanonicalHeaderKey Util.FormatTime
              Util.MIMETypeByExtension Example.server Example.world
              _ _ _ _ eq_refl Hr eq_refl) as (_ & _ & _ & H).
  destruct (H "/index.html/x" "index.html/x" "not a directory"
              eq_refl eq_refl eq_refl eq_refl) as [_ Hrun].
  exact (Hrun _ Example.worlds 0%nat "" eq_refl).
Defined.

(** A response whose header value begins with a space, and one whose header
    value holds a CRLF: the writer writes the values as they are, and the
    bytes read back give another header set. *)
Lemma C8_header_value_counterexample :
  parseResponse
    (Write Example.world
       (mkResponse "HTTP/1.1" 200 "OK" {[ "X-Note" := " v" ]} None ""))
  = Some (200, {[ "X-Note" := "v" ]}) /\
  parseResponse
    (Write Example.world
       (mkResponse "HTTP/1.1" 200 "OK" {[ "X-Note" := " v" ]} None ""))
  <> Some (StatusCode (mkResponse "HTTP/1.1" 200 "OK" {[ "X-Note" := " v" ]} None ""),
           ResHeaders (mkResponse "HTTP/1.1" 200 "OK" {[ "X-Note" := " v" ]} None "")) /\
  parseResponse
    (Write Example.world
       (mkResponse "HTTP/1.1" 200 "OK" {[ "X-Note" := "a" ++ CRLF ++ "Y: b" ]} None ""))
  = Some (200, <["Y" := "b"]> {[ "X-Note" := "a" ]}) /\
  parseResponse
    (Write Example.world
       (mkResponse "HTTP/1.1" 200 "OK" {[ "X-Note" := "a" ++ CRLF ++ "Y: b" ]} None ""))
  <> Some (StatusCode
             (mkResponse "HTTP/1.1" 200 "OK" {[ "X-Note" := "a" ++ CRLF ++ "Y: b" ]}
                         None ""),
           ResHeaders
             (mkResponse "HTTP/1.1" 200 "OK" {[ "X-Note" := "a" ++ CRLF ++ "Y: b" ]}
                         None "")).
Proof.
  split; [vm_compute; reflexivity|].
  split; [vm_compute; discriminate|].
  split; [vm_compute; reflexivity|].
  vm_compute; discriminate.
Qed.
